(** * A model-to-calendar relay: Rocq model of the Python sources

    The repository consists of two Python modules:

    - [mcp_calendar_client.py]: class [CalendarMCPClient], the bridge to the
      remote calendar service (tool registry, [execute_tool], and the two
      convenience operations [create_calendar_event] and [list_events]);
    - [claude_mcp_integration.py]: class [ClaudeMCPIntegration] (the
      orchestrator: [_format_tools_for_claude], [process_request],
      [_handle_claude_response]) and class [CalendarAssistant]
      ([process_command]).

    The embedding is shallow.  Python dictionaries with string keys built by
    the code are finite maps ([gmap string Json]); the tool registry
    [self.tools], whose iteration order the code observes, is an
    insertion-ordered association list.  The two external collaborators
    (the language-model backend behind [self.client.messages.create] and the
    remote service behind [self.session.call_tool]) are functions stored in
    the objects that own them; they see the whole history of external calls,
    so their answers may depend on everything that happened before.  Every
    external call is recorded in a trace, which is how the statements below
    talk about "contacting the remote service" or "issuing a follow-up
    request".  Exceptions are explicit: a computation returns either a value
    or the raised exception, together with the trace.

    Console output ([print], [logger]) has no influence on any value the
    code computes and is left out. *)

From Stdlib Require Import Ascii String ZArith List.
From stdpp Require Import gmap strings list fin_maps.

Local Open Scope string_scope.
Local Open Scope list_scope.
Local Set Warnings "-register-all".

(* ===================================================================== *)
(** ** Python values *)
(* ===================================================================== *)

(** JSON-compatible values: what the code puts into argument maps. *)
Inductive Json :=
| JNull
| JBool (b : bool)
| JNum (n : Z)
| JStr (s : string)
| JArr (l : list Json)
| JObj (m : gmap string Json).

(** Exceptions deriving from Python's [Exception], the ones an
    [except Exception] clause catches.  [OtherError] stands for whatever an
    external library raises (transport errors, API errors, timeouts). *)
Inductive Exn :=
| ValueError (msg : string)
| AttributeError (msg : string)
| TypeError (msg : string)
| OtherError (cls : string) (msg : string).

(** [str(e)] *)
Definition str (e : Exn) : string :=
  match e with
  | ValueError msg | AttributeError msg | TypeError msg => msg
  | OtherError _ msg => msg
  end.

(** Result of evaluating a Python expression: a value or a raised
    exception. *)
Inductive res (A : Type) :=
| Ok (a : A)
| Raised (e : Exn).
Arguments Ok {A} a.
Arguments Raised {A} e.

(** [s.lower()].  Strings are byte strings here (UTF-8); the ASCII capitals
    are mapped to their lower-case letters and every other byte is kept.
    No character outside ASCII lower-cases to one of the letters of
    ["quit"] or ["exit"], so the comparison the code makes with these two
    words comes out as in Python. *)
Definition lower_ascii (c : ascii) : ascii :=
  let n := nat_of_ascii c in
  if (65 <=? n)%nat && (n <=? 90)%nat then ascii_of_nat (n + 32) else c.

Fixpoint lower (s : string) : string :=
  match s with
  | EmptyString => EmptyString
  | String c s' => String (lower_ascii c) (lower s')
  end.

(** [sep.join(l)] *)
Fixpoint join (sep : string) (l : list string) : string :=
  match l with
  | [] => ""
  | [x] => x
  | x :: l' => x +:+ sep +:+ join sep l'
  end.

(** The double-quote and the newline character. *)
Definition dquote : string := String "034"%char EmptyString.
Definition newline : string := String "010"%char EmptyString.

(** Truthiness of an optional string argument ([if description:]): [None]
    and the empty string are both falsy. *)
Definition truthy_str (o : option string) : bool :=
  match o with
  | Some s => negb (String.eqb s "")
  | None => false
  end.

(** Truthiness of an optional list argument ([if attendees:]). *)
Definition truthy_list {A} (o : option (list A)) : bool :=
  match o with
  | Some (_ :: _) => true
  | _ => false
  end.

(* ===================================================================== *)
(** ** The boundary with the model backend *)
(* ===================================================================== *)

(** A tool object as the remote service describes it ([tool.name],
    [tool.description], [tool.inputSchema]). *)
Module MCPTool.
Record t := mk { name : string; description : string; inputSchema : Json }.
End MCPTool.

(** The dictionary [get_available_tools] builds for one tool. *)
Module ToolDescriptor.
Record t := mk { name : string; description : string; input_schema : Json }.
End ToolDescriptor.

(** The dictionary [_format_tools_for_claude] builds for one tool. *)
Module ClaudeTool.
Record t := mk { name : string; description : string; input_schema : Json }.
End ClaudeTool.

(** One segment of a model response, by its [type] attribute.  A
    [tool_use] segment carries [id], [name] and [input]. *)
Inductive ContentBlock :=
| TextBlock (text : string)
| ToolUseBlock (id : string) (name : string) (input : gmap string Json)
| OtherBlock (type : string).

Module Response.
Record t := mk { content : list ContentBlock }.
End Response.

(** [{"type": "tool_result", "tool_use_id": ..., "content": ...}] *)
Record ToolResultBlock := mkToolResultBlock {
  tool_use_id : string;
  tool_result_content : string
}.

(** The [content] of a request message: a plain string, the echoed segments
    of an assistant message, or a list of tool results. *)
Inductive MessageContent :=
| ContentStr (s : string)
| ContentBlocks (bs : list ContentBlock)
| ContentToolResults (rs : list ToolResultBlock).

Record Message := mkMessage { role : string; content : MessageContent }.

(** Keyword arguments of [messages.create]; [system] and [tools] are absent
    from the follow-up request. *)
Module Request.
Record t := mk {
  model : string;
  max_tokens : Z;
  system : option string;
  tools : option (list ClaudeTool.t);
  messages : list Message
}.
End Request.

(* ===================================================================== *)
(** ** External calls, traces and the computation monad *)
(* ===================================================================== *)

Inductive Event :=
| ModelRequest (req : Request.t)
| RemoteCall (name : string) (args : gmap string Json).

(** A computation reads the history of external calls, extends it, and
    returns a value or raises. *)
Definition M (A : Type) : Type := list Event -> res A * list Event.

Definition ret {A} (a : A) : M A := fun tr => (Ok a, tr).

Definition raise {A} (e : Exn) : M A := fun tr => (Raised e, tr).

Definition bind {A B} (m : M A) (k : A -> M B) : M B :=
  fun tr =>
    match m tr with
    | (Ok a, tr') => k a tr'
    | (Raised e, tr') => (Raised e, tr')
    end.

(** [try: body  except Exception as e: handler] *)
Definition try_except {A} (body : M A) (handler : Exn -> M A) : M A :=
  fun tr =>
    match body tr with
    | (Ok a, tr') => (Ok a, tr')
    | (Raised e, tr') => handler e tr'
    end.

(** An external call: the callee answers from the history so far, and the
    call is appended to the history whatever the answer. *)
Definition external {A} (ev : Event) (answer : list Event -> res A) : M A :=
  fun tr => (answer tr, tr ++ [ev]).

(** Lifting a pure partial computation. *)
Definition lift {A} (r : res A) : M A := fun tr => (r, tr).

Declare Scope relay_scope.
Delimit Scope relay_scope with relay.
Notation "x <- m ;; k" := (bind m (fun x => k))
  (at level 100, m at next level, right associativity) : relay_scope.
Local Open Scope relay_scope.

(** The remote calls of a trace, in order. *)
Definition remote_calls (tr : list Event) : list (string * gmap string Json) :=
  omap (fun ev => match ev with
                  | RemoteCall n a => Some (n, a)
                  | ModelRequest _ => None
                  end) tr.

(** The model requests of a trace, in order. *)
Definition model_requests (tr : list Event) : list Request.t :=
  omap (fun ev => match ev with
                  | ModelRequest r => Some r
                  | RemoteCall _ _ => None
                  end) tr.

(** The model backend object [Anthropic(...)]: [messages_create] is
    [self.client.messages.create]. *)
Record Anthropic := mkAnthropic {
  messages_create : list Event -> Request.t -> res Response.t
}.

Definition create_message (client : Anthropic) (req : Request.t) : M Response.t :=
  external (ModelRequest req) (fun tr => messages_create client tr req).

(* ===================================================================== *)
(** ** [mcp_calendar_client.py] *)
(* ===================================================================== *)

(** The payload [result.content] of a remote answer is opaque to the code.
    What the Python runtime does with values the sources do not construct
    is an interface: [json.dumps] of a payload (which raises [TypeError] on
    an object it cannot serialise), the JSON literal of a string, and
    [repr] of a string. *)
Class Runtime (Content : Type) := {
  dumps_content : Content -> res string;
  json_str : string -> string;
  repr_str : string -> string
}.

Section Relay.

Context {Content : Type} `{!Runtime Content}.

(** The session object [ClientSession]; [call_tool] is
    [self.session.call_tool]. *)
Record ClientSession := mkClientSession {
  call_tool : list Event -> string -> gmap string Json -> res Content
}.

Record CalendarMCPClient := mkCalendarMCPClient {
  server_command : string;
  server_args : list string;
  session : option ClientSession;
  tools : list (string * MCPTool.t)
}.

(** [CalendarMCPClient.__init__]; an argument left out is [None]. *)
Definition CalendarMCPClient_init (server_command : option string)
    (server_args : option (list string)) : CalendarMCPClient :=
  {| server_command := default "npx" server_command;
     server_args := if truthy_list server_args
                    then default [] server_args
                    else ["-y"; "@cocal/google-calendar-mcp"];
     session := None;
     tools := [] |}.

(** The dictionary [execute_tool] returns: [success], [content] and
    [tool_name] after a remote answer, [success], [error] and [tool_name]
    after a remote failure. *)
Inductive ToolResult :=
| ToolSuccess (content : Content) (tool_name : string)
| ToolFailure (error : string) (tool_name : string).

Definition tool_success (r : ToolResult) : bool :=
  match r with
  | ToolSuccess _ _ => true
  | ToolFailure _ _ => false
  end.

(** [r.get("error")] *)
Definition tool_error (r : ToolResult) : option string :=
  match r with
  | ToolSuccess _ _ => None
  | ToolFailure e _ => Some e
  end.

(** [json.dumps(tool_result)], keys in insertion order. *)
Definition json_key (k : string) : string := dquote +:+ k +:+ dquote.

Definition json_dumps (r : ToolResult) : res string :=
  match r with
  | ToolSuccess c n =>
      match dumps_content c with
      | Ok s => Ok ("{" +:+ json_key "success" +:+ ": true, "
                    +:+ json_key "content" +:+ ": " +:+ s +:+ ", "
                    +:+ json_key "tool_name" +:+ ": " +:+ json_str n +:+ "}")
      | Raised e => Raised e
      end
  | ToolFailure e n =>
      Ok ("{" +:+ json_key "success" +:+ ": false, "
          +:+ json_key "error" +:+ ": " +:+ json_str e +:+ ", "
          +:+ json_key "tool_name" +:+ ": " +:+ json_str n +:+ "}")
  end.

(** [get_available_tools]: one dictionary per registry item, in the
    registry's order. *)
Definition get_available_tools (self : CalendarMCPClient) : list ToolDescriptor.t :=
  fold_left
    (fun claude_tools item =>
       let '(tool_name, tool) := item in
       claude_tools ++ [ToolDescriptor.mk tool_name
                          (MCPTool.description tool)
                          (MCPTool.inputSchema tool)])
    (tools self) [].

(** [list(self.tools.keys())] and its rendering inside an f-string. *)
Definition registry_keys (self : CalendarMCPClient) : list string :=
  (tools self).*1.

Definition repr_list (l : list string) : string :=
  "[" +:+ join ", " (repr_str <$> l) +:+ "]".

(** [execute_tool] *)
Definition execute_tool (self : CalendarMCPClient) (tool_name : string)
    (arguments : gmap string Json) : M ToolResult :=
  if negb (bool_decide (tool_name ∈ registry_keys self)) then
    raise (ValueError ("Tool '" +:+ tool_name
                       +:+ "' not available. Available tools: "
                       +:+ repr_list (registry_keys self)))
  else
    try_except
      (result <- match session self with
                 | Some s =>
                     external (RemoteCall tool_name arguments)
                       (fun tr => call_tool s tr tool_name arguments)
                 | None =>
                     raise (AttributeError
                              "'NoneType' object has no attribute 'call_tool'")
                 end;;
       ret (ToolSuccess result tool_name))
      (fun e => ret (ToolFailure (str e) tool_name)).

(** The argument map [create_calendar_event] builds. *)
Definition time_point (t : string) : Json :=
  JObj (<["timeZone" := JStr "America/New_York"]>
        (<["dateTime" := JStr t]> ∅)).

Definition create_calendar_event_args (summary start_time end_time : string)
    (description : option string) (attendees : option (list string))
    : gmap string Json :=
  let args : gmap string Json :=
    <["end" := time_point end_time]>
    (<["start" := time_point start_time]>
     (<["summary" := JStr summary]> ∅)) in
  let args :=
    if truthy_str description
    then <["description" := JStr (default "" description)]> args
    else args in
  let args :=
    if truthy_list attendees
    then <["attendees" :=
             JArr ((fun email => JObj (<["email" := JStr email]> ∅))
                     <$> default [] attendees)]> args
    else args in
  args.

(** [create_calendar_event]; [description] and [attendees] default to
    [None]. *)
Definition create_calendar_event (self : CalendarMCPClient)
    (summary start_time end_time : string)
    (description : option string) (attendees : option (list string))
    : M ToolResult :=
  execute_tool self "create_calendar_event"
    (create_calendar_event_args summary start_time end_time
       description attendees).

(** The argument map [list_events] builds.  [max_results] is [None] when
    the caller leaves the parameter out, and the default 10 applies. *)
Definition list_events_args (time_min time_max : option string)
    (max_results : option Z) : gmap string Json :=
  let args : gmap string Json :=
    <["maxResults" := JNum (default 10%Z max_results)]> ∅ in
  let args :=
    if truthy_str time_min
    then <["timeMin" := JStr (default "" time_min)]> args
    else args in
  let args :=
    if truthy_str time_max
    then <["timeMax" := JStr (default "" time_max)]> args
    else args in
  args.

(** [list_events] *)
Definition list_events (self : CalendarMCPClient)
    (time_min time_max : option string) (max_results : option Z)
    : M ToolResult :=
  execute_tool self "list_calendar_events"
    (list_events_args time_min time_max max_results).

(* ===================================================================== *)
(** ** [claude_mcp_integration.py] *)
(* ===================================================================== *)

Record ClaudeMCPIntegration := mkClaudeMCPIntegration {
  client : Anthropic;
  mcp_client : option CalendarMCPClient
}.

(** [ClaudeMCPIntegration.__init__]: no bridge until [initialize_mcp]. *)
Definition ClaudeMCPIntegration_init (backend : Anthropic) : ClaudeMCPIntegration :=
  {| client := backend; mcp_client := None |}.

(** [_format_tools_for_claude] *)
Definition _format_tools_for_claude (mcp_tools : list ToolDescriptor.t)
    : list ClaudeTool.t :=
  fold_left
    (fun claude_tools tool =>
       claude_tools ++ [ClaudeTool.mk (ToolDescriptor.name tool)
                          (ToolDescriptor.description tool)
                          (ToolDescriptor.input_schema tool)])
    mcp_tools [].

(** One element of the [results] list of an outcome, by its [type] key. *)
Inductive ResultEntry :=
| TextEntry (content : string)
| ToolExecutionEntry (tool_name : string) (tool_id : string)
    (input : gmap string Json) (result : ToolResult)
| FinalResponseEntry (content : string).

(** The dictionary a turn returns: [success], [results] and [raw_response]
    when the turn completes; [success], [error] and [response] (always
    [None]) when an exception was caught. *)
Inductive Outcome :=
| Completed (results : list ResultEntry) (raw_response : Response.t)
| Failed (error : string).

Definition success (o : Outcome) : bool :=
  match o with
  | Completed _ _ => true
  | Failed _ => false
  end.

(** [o.get("results")] *)
Definition results (o : Outcome) : option (list ResultEntry) :=
  match o with
  | Completed rs _ => Some rs
  | Failed _ => None
  end.

(** [o.get("error")] *)
Definition error (o : Outcome) : option string :=
  match o with
  | Completed _ _ => None
  | Failed e => Some e
  end.

Definition model_id : string := "claude-3-5-sonnet-20241022".

Definition indent : string := "            ".

Definition system_message : string :=
  "You are an AI assistant with access to Google Calendar through MCP tools. "
  +:+ newline +:+ indent
  +:+ "You can help users create, list, update, and manage calendar events. "
  +:+ newline +:+ indent
  +:+ newline +:+ indent
  +:+ "When users ask for calendar operations:"
  +:+ newline +:+ indent
  +:+ "1. Use the appropriate MCP tool"
  +:+ newline +:+ indent
  +:+ "2. Format dates/times properly (ISO 8601 format)"
  +:+ newline +:+ indent
  +:+ "3. Provide clear confirmation of what was done"
  +:+ newline +:+ indent
  +:+ newline +:+ indent
  +:+ "Available calendar operations include creating events, listing events, updating events, etc.".

(** The first request of a turn. *)
Definition turn_request (claude_tools : list ClaudeTool.t) (user_message : string)
    : Request.t :=
  {| Request.model := model_id;
     Request.max_tokens := 1000;
     Request.system := Some system_message;
     Request.tools := Some claude_tools;
     Request.messages := [mkMessage "user" (ContentStr user_message)] |}.

(** The follow-up request after one tool use: a fixed placeholder for the
    user's message, the echoed response, and the tool result keyed by the
    invocation identifier. *)
Definition follow_up_request (response : Response.t) (tool_id : string)
    (payload : string) : Request.t :=
  {| Request.model := model_id;
     Request.max_tokens := 1000;
     Request.system := None;
     Request.tools := None;
     Request.messages :=
       [mkMessage "user" (ContentStr "Previous request");
        mkMessage "assistant" (ContentBlocks (Response.content response));
        mkMessage "user" (ContentToolResults [mkToolResultBlock tool_id payload])] |}.

(** The inner loop over the segments of a follow-up response. *)
Definition add_final_responses (results : list ResultEntry)
    (blocks : list ContentBlock) : list ResultEntry :=
  fold_left
    (fun results follow_up_block =>
       match follow_up_block with
       | TextBlock text => results ++ [FinalResponseEntry text]
       | _ => results
       end)
    blocks results.

(** [self.mcp_client.execute_tool(...)], where [self.mcp_client] may still
    be [None]. *)
Definition mcp_execute_tool (self : ClaudeMCPIntegration) (tool_name : string)
    (tool_input : gmap string Json) : M ToolResult :=
  match mcp_client self with
  | Some c => execute_tool c tool_name tool_input
  | None =>
      raise (AttributeError "'NoneType' object has no attribute 'execute_tool'")
  end.

(** The loop of [_handle_claude_response] over the segments still to be
    processed; [results] is the list built so far. *)
Fixpoint handle_blocks (self : ClaudeMCPIntegration) (response : Response.t)
    (blocks : list ContentBlock) (results : list ResultEntry)
    : M (list ResultEntry) :=
  match blocks with
  | [] => ret results
  | content_block :: blocks' =>
      match content_block with
      | TextBlock text =>
          handle_blocks self response blocks' (results ++ [TextEntry text])
      | ToolUseBlock tool_id tool_name tool_input =>
          tool_result <- mcp_execute_tool self tool_name tool_input;;
          let results :=
            results ++ [ToolExecutionEntry tool_name tool_id tool_input tool_result] in
          payload <- lift (json_dumps tool_result);;
          follow_up_response <-
            create_message (client self)
              (follow_up_request response tool_id payload);;
          handle_blocks self response blocks'
            (add_final_responses results (Response.content follow_up_response))
      | OtherBlock _ =>
          handle_blocks self response blocks' results
      end
  end.

(** [_handle_claude_response] *)
Definition _handle_claude_response (self : ClaudeMCPIntegration)
    (response : Response.t) : M Outcome :=
  results <- handle_blocks self response (Response.content response) [];;
  ret (Completed results response).

(** The body of the [try] block of [process_request]. *)
Definition process_request_body (self : ClaudeMCPIntegration)
    (user_message : string) : M Outcome :=
  mcp_tools <- match mcp_client self with
               | Some c => ret (get_available_tools c)
               | None =>
                   raise (AttributeError
                     "'NoneType' object has no attribute 'get_available_tools'")
               end;;
  let claude_tools := _format_tools_for_claude mcp_tools in
  response <- create_message (client self)
                (turn_request claude_tools user_message);;
  result <- _handle_claude_response self response;;
  ret result.

(** [process_request] *)
Definition process_request (self : ClaudeMCPIntegration)
    (user_message : string) : M Outcome :=
  try_except (process_request_body self user_message)
    (fun e => ret (Failed ("Failed to process request: " +:+ str e))).

(** What [process_command] returns: the dictionary [{"action": "quit"}] or
    the outcome of a turn. *)
Inductive CommandResult :=
| QuitAction
| TurnResult (o : Outcome).

Record CalendarAssistant := mkCalendarAssistant {
  integration : ClaudeMCPIntegration
}.

(** [command.lower() in ['quit', 'exit']] *)
Definition is_sentinel (command : string) : bool :=
  bool_decide (lower command ∈ ["quit"; "exit"]).

(** [process_command] *)
Definition process_command (self : CalendarAssistant) (command : string)
    : M CommandResult :=
  if is_sentinel command then
    ret QuitAction
  else
    result <- process_request (integration self) command;;
    ret (TurnResult result).

End Relay.

Arguments ClientSession : clear implicits.
Arguments CalendarMCPClient : clear implicits.
Arguments ToolResult : clear implicits.
Arguments ClaudeMCPIntegration : clear implicits.
Arguments ResultEntry : clear implicits.
Arguments Outcome : clear implicits.
Arguments CommandResult : clear implicits.
Arguments CalendarAssistant : clear implicits.

(* ===================================================================== *)
(** ** Observations on traces and responses *)
(* ===================================================================== *)

(** [j[k]] for a JSON object [j], when present. *)
Definition json_field (k : string) (j : Json) : option Json :=
  match j with
  | JObj m => m !! k
  | _ => None
  end.

(** The [tool_use] segments of a response, as (id, name, input), in
    order. *)
Definition tool_uses (blocks : list ContentBlock)
    : list (string * string * gmap string Json) :=
  omap (fun b => match b with
                 | ToolUseBlock tool_id tool_name tool_input =>
                     Some (tool_id, tool_name, tool_input)
                 | _ => None
                 end) blocks.

(** The external calls caused by a list of tool uses, given the serialised
    result sent back for each: the remote invocation, then its follow-up
    request, one pair after the other. *)
Definition tool_round_trips (response : Response.t)
    (uses : list (string * string * gmap string Json))
    (payloads : list string) : list Event :=
  concat (zip_with
            (fun u payload =>
               let '(tool_id, tool_name, tool_input) := u in
               [RemoteCall tool_name tool_input;
                ModelRequest (follow_up_request response tool_id payload)])
            uses payloads).

(** The [final_response] entries a follow-up response contributes. *)
Definition final_responses {Content} (blocks : list ContentBlock)
    : list (ResultEntry Content) :=
  omap (fun b => match b with
                 | TextBlock text => Some (FinalResponseEntry text)
                 | _ => None
                 end) blocks.

(** The invocation identifier a follow-up request answers. *)
Definition answered_ids (req : Request.t) : list string :=
  match last (Request.messages req) with
  | Some (mkMessage _ (ContentToolResults rs)) => tool_use_id <$> rs
  | _ => []
  end.

(** The remote calls among the events [evs], happening after the history
    [pre], that the session answered by raising: name, arguments and the
    exception raised. *)
Fixpoint remote_failures {Content} (s : ClientSession Content)
    (pre evs : list Event) : list (string * gmap string Json * Exn) :=
  match evs with
  | [] => []
  | ev :: evs' =>
      match ev with
      | RemoteCall n a =>
          match call_tool s pre n a with
          | Raised e => [(n, a, e)]
          | Ok _ => []
          end
      | ModelRequest _ => []
      end ++ remote_failures s (pre ++ [ev]) evs'
  end.

(* ===================================================================== *)
(** ** Concrete scenarios *)
(* ===================================================================== *)

Module Scenario.

(** A runtime whose payloads are strings. *)
#[global] Instance runtime : Runtime string := {|
  dumps_content := fun s => Ok (dquote +:+ s +:+ dquote);
  json_str := fun s => dquote +:+ s +:+ dquote;
  repr_str := fun s => "'" +:+ s +:+ "'"
|}.

Definition registry : list (string * MCPTool.t) :=
  [("create_calendar_event",
    MCPTool.mk "create_calendar_event" "Create an event" (JObj ∅));
   ("list_calendar_events",
    MCPTool.mk "list_calendar_events" "List events" (JObj ∅))].

(** The service creates events and rejects every listing. *)
Definition service : ClientSession string :=
  mkClientSession
    (fun _ tool_name _ =>
       if String.eqb tool_name "create_calendar_event"
       then Ok "event created"
       else Raised (OtherError "McpError" "Invalid arguments")).

(** A service whose failures stringify to the empty string, as a bare
    timeout does. *)
Definition silent_service : ClientSession string :=
  mkClientSession (fun _ _ _ => Raised (OtherError "TimeoutError" "")).

Definition bridge : CalendarMCPClient string :=
  mkCalendarMCPClient "npx" ["-y"; "@cocal/google-calendar-mcp"]
    (Some service) registry.

Definition silent_bridge : CalendarMCPClient string :=
  mkCalendarMCPClient "npx" ["-y"; "@cocal/google-calendar-mcp"]
    (Some silent_service) registry.

Definition list_request : list ContentBlock :=
  [TextBlock "Let me check.";
   ToolUseBlock "toolu_01" "list_calendar_events" (list_events_args None None None)].

(** A backend that answers every request with text only. *)
Definition text_backend : Anthropic :=
  mkAnthropic (fun _ _ => Ok (Response.mk [TextBlock "You have no events."])).

(** A backend that first asks for a listing, then comments on the result. *)
Definition listing_backend : Anthropic :=
  mkAnthropic
    (fun tr _ =>
       match tr with
       | [] => Ok (Response.mk list_request)
       | _ => Ok (Response.mk [TextBlock "I could not list your events."])
       end).

(** A backend that asks for a listing and is unavailable afterwards. *)
Definition flaky_backend : Anthropic :=
  mkAnthropic
    (fun tr _ =>
       match tr with
       | [] => Ok (Response.mk list_request)
       | _ => Raised (OtherError "APIError" "Overloaded")
       end).

(** A backend that asks for a tool the service never announced. *)
Definition confused_backend : Anthropic :=
  mkAnthropic
    (fun _ _ => Ok (Response.mk [ToolUseBlock "toolu_01" "delete_calendar" ∅])).

Definition unnamed_tool : ToolDescriptor.t :=
  ToolDescriptor.mk "" "A tool without a name" (JObj ∅).

(** The orchestrators built from these parts. *)
Definition chatty : ClaudeMCPIntegration string :=
  mkClaudeMCPIntegration text_backend (Some bridge).

Definition listing : ClaudeMCPIntegration string :=
  mkClaudeMCPIntegration listing_backend (Some bridge).

Definition flaky : ClaudeMCPIntegration string :=
  mkClaudeMCPIntegration flaky_backend (Some bridge).

Definition confused : ClaudeMCPIntegration string :=
  mkClaudeMCPIntegration confused_backend (Some bridge).

Definition silent : ClaudeMCPIntegration string :=
  mkClaudeMCPIntegration listing_backend (Some silent_bridge).

Definition assistant : CalendarAssistant string :=
  mkCalendarAssistant chatty.

(** A response that books a meeting and then asks for the day's events. *)
Definition booking_response : Response.t :=
  Response.mk
    [ToolUseBlock "toolu_01" "create_calendar_event"
       (create_calendar_event_args "Standup" "2025-01-02T09:00:00"
          "2025-01-02T09:30:00" None None);
     TextBlock "Then I will list your day.";
     ToolUseBlock "toolu_02" "list_calendar_events"
       (list_events_args None None None)].


(** The same turn against the service that fails without a message. *)
Definition silent_outcome : Outcome string :=
  Completed
    [TextEntry "Let me check.";
     ToolExecutionEntry "list_calendar_events" "toolu_01"
       (list_events_args None None None)
       (ToolFailure "" "list_calendar_events");
     FinalResponseEntry "I could not list your events."]
    (Response.mk list_request).

(** The first request of a turn through [bridge]. *)
Definition first_request (user_message : string) : Request.t :=
  turn_request (_format_tools_for_claude (get_available_tools bridge))
    user_message.

End Scenario.

(* ===================================================================== *)
(** ** Further observations on responses and outcomes *)
(* ===================================================================== *)




(** Segments that are neither [text] nor [tool_use]. *)
Definition is_other_block (b : ContentBlock) : bool :=
  match b with
  | OtherBlock _ => true
  | _ => false
  end.

(* ===================================================================== *)
(** ** Connection lifecycle and the interactive loop *)
(* ===================================================================== *)

(** This part models what surrounds the turns: [_discover_tools],
    [__aenter__] and [__aexit__] of [CalendarMCPClient], [initialize_mcp]
    and [cleanup_mcp] of [ClaudeMCPIntegration], and [start], [stop] and
    [interactive_mode] of [CalendarAssistant].  The calls made to the server
    side are recorded in a log of their own.  Standard input is a finite
    list of lines; as before, console output is left out. *)

(** Computations over an arbitrary state that may raise; [M] above is this
    at the state [list Event]. *)
Definition SE (S A : Type) : Type := S -> res A * S.

Definition se_ret {S A} (a : A) : SE S A := fun st => (Ok a, st).

Definition se_bind {S A B} (m : SE S A) (k : A -> SE S B) : SE S B :=
  fun st =>
    match m st with
    | (Ok a, st') => k a st'
    | (Raised e, st') => (Raised e, st')
    end.

Definition se_modify {S} (f : S -> S) : SE S unit := fun st => (Ok tt, f st).

(** [try: body  finally: cleanup]: the cleanup always runs; when it raises,
    its exception is the one that propagates. *)
Definition se_finally {S A} (body : SE S A) (cleanup : SE S unit) : SE S A :=
  fun st =>
    match body st with
    | (r, st1) =>
        match cleanup st1 with
        | (Ok _, st2) => (r, st2)
        | (Raised e, st2) => (Raised e, st2)
        end
    end.

Notation "x <~ m ;; k" := (se_bind m (fun x => k))
  (at level 100, m at next level, right associativity) : relay_scope.

(** [d[k] = v] on an insertion-ordered dictionary: a key already present
    keeps its position and takes the new value, a new key goes last. *)
Fixpoint dict_set {V} (k : string) (v : V) (d : list (string * V))
    : list (string * V) :=
  match d with
  | [] => [(k, v)]
  | (k', v') :: d' =>
      if String.eqb k' k then (k', v) :: d' else (k', v') :: dict_set k v d'
  end.

(** [d.get(k)] *)
Fixpoint dict_get {V} (k : string) (d : list (string * V)) : option V :=
  match d with
  | [] => None
  | (k', v') :: d' => if String.eqb k' k then Some v' else dict_get k d'
  end.

(** [{tool.name: tool for tool in announced}] *)
Definition tools_by_name (announced : list MCPTool.t) : list (string * MCPTool.t) :=
  fold_left (fun d tool => dict_set (MCPTool.name tool) tool d) announced [].

(** The calls made to the server side while connecting and disconnecting:
    entering and leaving the two context managers, and the two requests of
    the handshake. *)
Inductive ServerCall :=
| StdioEnter (command : string) (args : list string)
| SessionEnter
| SessionInitialize
| ListTools
| SessionExit
| StdioExit.

Section Lifecycle.

Context {Content : Type} `{!Runtime Content}.

(** What the server side answers to each of these calls.  Within one
    connection every call is made at most once, so an answer does not need
    to depend on the history.  Creating the two context managers
    ([stdio_client(...)], [ClientSession(...)]) is taken not to raise:
    only entering and leaving them does. *)
Record Server := mkServer {
  stdio_enter : string -> list string -> res unit;
  session_enter : res (ClientSession Content);
  session_initialize : res unit;
  list_tools : res (list MCPTool.t);
  session_exit : res unit;
  stdio_exit : res unit
}.

(** A [CalendarMCPClient] object together with the two attributes that
    [__aenter__] creates and [__aexit__] tests with [hasattr]. *)
Record ClientObject := mkClientObject {
  attrs : CalendarMCPClient Content;
  has_stdio_client : bool;
  has_session_context : bool
}.

(** [CalendarMCPClient(...)]: a new object has neither attribute. *)
Definition new_client (server_command : option string)
    (server_args : option (list string)) : ClientObject :=
  mkClientObject (CalendarMCPClient_init server_command server_args) false false.

Definition set_session (s : ClientSession Content) (o : ClientObject) : ClientObject :=
  mkClientObject
    (mkCalendarMCPClient (server_command (attrs o)) (server_args (attrs o))
       (Some s) (tools (attrs o)))
    (has_stdio_client o) (has_session_context o).

Definition set_tools (t : list (string * MCPTool.t)) (o : ClientObject) : ClientObject :=
  mkClientObject
    (mkCalendarMCPClient (server_command (attrs o)) (server_args (attrs o))
       (session (attrs o)) t)
    (has_stdio_client o) (has_session_context o).

Definition set_stdio_client (o : ClientObject) : ClientObject :=
  mkClientObject (attrs o) true (has_session_context o).

Definition set_session_context (o : ClientObject) : ClientObject :=
  mkClientObject (attrs o) (has_stdio_client o) true.

(** The state of a connection: the object and the server calls so far. *)
Definition server_call {A} (call : ServerCall) (answer : res A)
    : SE (ClientObject * list ServerCall) A :=
  fun st => (answer, (st.1, st.2 ++ [call])).

Definition update (f : ClientObject -> ClientObject)
    : SE (ClientObject * list ServerCall) unit :=
  se_modify (fun st => (f st.1, st.2)).

(** [_discover_tools]; its [except] clause logs and re-raises. *)
Definition _discover_tools (server : Server)
    : SE (ClientObject * list ServerCall) unit :=
  fun st =>
    match session (attrs st.1) with
    | Some _ =>
        (tools_response <~ server_call ListTools (list_tools server);;
         update (set_tools (tools_by_name tools_response))) st
    | None =>
        (Raised (AttributeError "'NoneType' object has no attribute 'list_tools'"),
         st)
    end.

(** [__aenter__]; its [except] clause logs and re-raises. *)
Definition __aenter__ (server : Server)
    : SE (ClientObject * list ServerCall) unit :=
  fun st =>
    (_ <~ update set_stdio_client;;
     _ <~ server_call
            (StdioEnter (server_command (attrs st.1)) (server_args (attrs st.1)))
            (stdio_enter server (server_command (attrs st.1))
               (server_args (attrs st.1)));;
     _ <~ update set_session_context;;
     s <~ server_call SessionEnter (session_enter server);;
     _ <~ update (set_session s);;
     _ <~ server_call SessionInitialize (session_initialize server);;
     _discover_tools server) st.

(** [__aexit__] *)
Definition __aexit__ (server : Server)
    : SE (ClientObject * list ServerCall) unit :=
  fun st =>
    (_ <~ (if has_session_context st.1
           then server_call SessionExit (session_exit server)
           else se_ret tt);;
     if has_stdio_client st.1
     then server_call StdioExit (stdio_exit server)
     else se_ret tt) st.

(** The world of the interactive assistant: the bridge object held by the
    orchestrator ([None] until [initialize_mcp]), the server calls and the
    external calls of the turns so far, and the lines still to be read from
    standard input. *)
Record World := mkWorld {
  mcp_object : option ClientObject;
  server_calls : list ServerCall;
  turns : list Event;
  stdin : list string
}.

(** [initialize_mcp]: the new object is stored before it is entered. *)
Definition initialize_mcp (server : Server) : SE World unit :=
  fun w =>
    match __aenter__ server (new_client None None, server_calls w) with
    | (r, (o, calls)) => (r, mkWorld (Some o) calls (turns w) (stdin w))
    end.

(** [cleanup_mcp] *)
Definition cleanup_mcp (server : Server) : SE World unit :=
  fun w =>
    match mcp_object w with
    | Some o =>
        match __aexit__ server (o, server_calls w) with
        | (r, (o', calls)) => (r, mkWorld (Some o') calls (turns w) (stdin w))
        end
    | None => (Ok tt, w)
    end.

(** [CalendarAssistant.start] and [CalendarAssistant.stop] *)
Definition start (server : Server) : SE World unit := initialize_mcp server.

Definition stop (server : Server) : SE World unit := cleanup_mcp server.

(** The orchestrator as the turns see it. *)
Definition integration_of (backend : Anthropic) (w : World)
    : ClaudeMCPIntegration Content :=
  mkClaudeMCPIntegration backend (attrs <$> mcp_object w).

(** [process_command] run in the world. *)
Definition run_command (backend : Anthropic) (command : string)
    : SE World (CommandResult Content) :=
  fun w =>
    match process_command (mkCalendarAssistant (integration_of backend w))
            command (turns w) with
    | (r, tr) => (r, mkWorld (mcp_object w) (server_calls w) tr (stdin w))
    end.

(** The [while True] loop of [interactive_mode] over the lines [inputs]
    still to be read; reading past the last line raises [EOFError]. *)
Fixpoint command_loop (backend : Anthropic) (inputs : list string)
    : SE World unit :=
  fun w =>
    match inputs with
    | [] =>
        (Raised (OtherError "EOFError" "EOF when reading a line"),
         mkWorld (mcp_object w) (server_calls w) (turns w) [])
    | user_input :: inputs' =>
        let w := mkWorld (mcp_object w) (server_calls w) (turns w) inputs' in
        if is_sentinel user_input then (Ok tt, w)
        else
          (_ <~ run_command backend user_input;;
           command_loop backend inputs') w
    end.

(** [interactive_mode] *)
Definition interactive_mode (server : Server) (backend : Anthropic)
    : SE World unit :=
  _ <~ start server;;
  (fun w => se_finally (command_loop backend (stdin w)) (stop server) w).

End Lifecycle.

Arguments Server : clear implicits.
Arguments ClientObject : clear implicits.
Arguments World : clear implicits.

(** The commands an interactive session processes: the lines before the
    first sentinel. *)
Fixpoint commands_before_sentinel (inputs : list string) : list string :=
  match inputs with
  | [] => []
  | line :: inputs' =>
      if is_sentinel line then [] else line :: commands_before_sentinel inputs'
  end.

(** The lines an interactive session leaves unread: those after the first
    sentinel. *)
Fixpoint lines_after_sentinel (inputs : list string) : list string :=
  match inputs with
  | [] => []
  | line :: inputs' =>
      if is_sentinel line then inputs' else lines_after_sentinel inputs'
  end.

(** The external calls of a sequence of turns. *)
Definition run_turns {Content} `{!Runtime Content}
    (this : ClaudeMCPIntegration Content) (commands : list string)
    (tr : list Event) : list Event :=
  fold_left (fun tr command => snd (process_request this command tr)) commands tr.

(* ===================================================================== *)
(** ** More concrete scenarios: connecting, talking, disconnecting *)
(* ===================================================================== *)

Module Walkthrough.

Definition announced : list MCPTool.t :=
  [MCPTool.mk "create_calendar_event" "Create an event" (JObj ∅);
   MCPTool.mk "list_calendar_events" "List events" (JObj ∅)].

(** The server announces a tool twice, with different descriptions. *)
Definition announced_twice : list MCPTool.t :=
  [MCPTool.mk "list_calendar_events" "List events (old)" (JObj ∅);
   MCPTool.mk "create_calendar_event" "Create an event" (JObj ∅);
   MCPTool.mk "list_calendar_events" "List events" (JObj ∅)].

(** A server that answers every call of the handshake and of the
    shutdown. *)
Definition server : Server string :=
  mkServer (fun _ _ => Ok tt) (Ok Scenario.service) (Ok tt) (Ok announced)
    (Ok tt) (Ok tt).

(** A server whose session cannot be initialised. *)
Definition stalled_server : Server string :=
  mkServer (fun _ _ => Ok tt) (Ok Scenario.service)
    (Raised (OtherError "McpError" "Connection closed")) (Ok announced)
    (Ok tt) (Ok tt).

(** A server whose session context cannot be left. *)
Definition clinging_server : Server string :=
  mkServer (fun _ _ => Ok tt) (Ok Scenario.service) (Ok tt) (Ok announced)
    (Raised (OtherError "RuntimeError" "Attempted to exit cancel scope"))
    (Ok tt).

(** The calls of a complete handshake with the default command. *)
Definition handshake : list ServerCall :=
  [StdioEnter "npx" ["-y"; "@cocal/google-calendar-mcp"];
   SessionEnter; SessionInitialize; ListTools].

(** The client object once connected to [server]. *)
Definition connected : ClientObject string :=
  mkClientObject
    (mkCalendarMCPClient "npx" ["-y"; "@cocal/google-calendar-mcp"]
       (Some Scenario.service) (tools_by_name announced))
    true true.

(** The client object after the handshake with [stalled_server] broke
    off. *)
Definition half_open : ClientObject string :=
  mkClientObject
    (mkCalendarMCPClient "npx" ["-y"; "@cocal/google-calendar-mcp"]
       (Some Scenario.service) [])
    true true.

(** A response that books a meeting and then asks for a tool nobody
    announced. *)
Definition overreaching_response : Response.t :=
  Response.mk
    [ToolUseBlock "toolu_01" "create_calendar_event"
       (create_calendar_event_args "Standup" "2025-01-02T09:00:00"
          "2025-01-02T09:30:00" None None);
     ToolUseBlock "toolu_02" "delete_calendar" ∅].

Definition overreaching_backend : Anthropic :=
  mkAnthropic
    (fun tr _ =>
       match tr with
       | [] => Ok overreaching_response
       | _ => Ok (Response.mk [TextBlock "The meeting is booked."])
       end).

Definition overreaching : ClaudeMCPIntegration string :=
  mkClaudeMCPIntegration overreaching_backend (Some Scenario.bridge).

(** The world before an interactive session with three lines of input. *)
Definition before : World string :=
  mkWorld None [] [] ["List my events"; "Quit"; "never read"].

(** The world after connecting to [server]. *)
Definition after_start : World string :=
  mkWorld (Some connected) handshake [] ["List my events"; "Quit"; "never read"].

(** The world after the handshake with [stalled_server] broke off. *)
Definition after_failed_start : World string :=
  mkWorld (Some half_open)
    [StdioEnter "npx" ["-y"; "@cocal/google-calendar-mcp"];
     SessionEnter; SessionInitialize]
    [] ["List my events"; "Quit"; "never read"].

End Walkthrough.

(* ===================================================================== *)
(** ** Properties *)
(* ===================================================================== *)

(** *** Loops that append *)

Lemma fold_left_snoc {A B} (f : A -> B) (l : list A) (acc : list B) :
  fold_left (fun acc x => acc ++ [f x]) l acc = acc ++ (f <$> l).
Proof.
  revert acc; induction l as [|x l IH]; intros acc; simpl.
  - by rewrite app_nil_r.
  - by rewrite IH, <- app_assoc.
Qed.

Lemma format_tools_fmap (mcp_tools : list ToolDescriptor.t) :
  _format_tools_for_claude mcp_tools =
  (fun tool => ClaudeTool.mk (ToolDescriptor.name tool)
                 (ToolDescriptor.description tool)
                 (ToolDescriptor.input_schema tool)) <$> mcp_tools.
Proof. unfold _format_tools_for_claude. by rewrite fold_left_snoc. Qed.

Lemma lower_ascii_idemp (c : ascii) : lower_ascii (lower_ascii c) = lower_ascii c.
Proof.
  destruct c as [[] [] [] [] [] [] [] []]; reflexivity.
Qed.

Lemma lower_idemp (s : string) : lower (lower s) = lower s.
Proof.
  induction s as [|c s IH]; simpl; [done|].
  by rewrite lower_ascii_idemp, IH.
Qed.

(** *** Sequencing *)

Lemma bind_Ok_inv {A B} (m : M A) (k : A -> M B) tr b tr' :
  bind m k tr = (Ok b, tr') ->
  exists a tr1, m tr = (Ok a, tr1) /\ k a tr1 = (Ok b, tr').
Proof.
  unfold bind. destruct (m tr) as [[a|e] tr1]; [eauto | discriminate].
Qed.

Lemma bind_Ok {A B} (m : M A) (k : A -> M B) tr a tr1 :
  m tr = (Ok a, tr1) -> bind m k tr = k a tr1.
Proof. unfold bind. by intros ->. Qed.

Lemma bind_Raised {A B} (m : M A) (k : A -> M B) tr e tr1 :
  m tr = (Raised e, tr1) -> bind m k tr = (Raised e, tr1).
Proof. unfold bind. by intros ->. Qed.

Section Properties.

Context {Content : Type} `{!Runtime Content}.

Implicit Types (self : CalendarMCPClient Content) (tr : list Event).

Lemma get_available_tools_fmap self :
  get_available_tools self =
  (fun item => ToolDescriptor.mk item.1 (MCPTool.description item.2)
                 (MCPTool.inputSchema item.2)) <$> tools self.
Proof.
  unfold get_available_tools.
  enough (forall l acc,
    fold_left
      (fun claude_tools (item : string * MCPTool.t) =>
         let '(tool_name, tool) := item in
         claude_tools ++ [ToolDescriptor.mk tool_name
                            (MCPTool.description tool)
                            (MCPTool.inputSchema tool)]) l acc =
    acc ++ ((fun item => ToolDescriptor.mk item.1 (MCPTool.description item.2)
                           (MCPTool.inputSchema item.2)) <$> l)) as Hfold
    by apply Hfold.
  induction l as [|[n t] l IH]; intros acc; simpl.
  - by rewrite app_nil_r.
  - by rewrite IH, <- app_assoc.
Qed.

(** *** The tool execution bridge *)

Lemma execute_tool_connected self (s : ClientSession Content) tool_name arguments tr :
  tool_name ∈ registry_keys self ->
  session self = Some s ->
  execute_tool self tool_name arguments tr =
    (Ok match call_tool s tr tool_name arguments with
        | Ok c => ToolSuccess c tool_name
        | Raised e => ToolFailure (str e) tool_name
        end,
     tr ++ [RemoteCall tool_name arguments]).
Proof.
  intros Hin Hs. unfold execute_tool.
  rewrite (bool_decide_eq_true_2 _ Hin); simpl.
  unfold try_except, bind, external, ret. rewrite Hs.
  by destruct (call_tool s tr tool_name arguments).
Qed.

Lemma execute_tool_disconnected self tool_name arguments tr :
  tool_name ∈ registry_keys self ->
  session self = None ->
  execute_tool self tool_name arguments tr =
    (Ok (ToolFailure "'NoneType' object has no attribute 'call_tool'" tool_name),
     tr).
Proof.
  intros Hin Hs. unfold execute_tool.
  rewrite (bool_decide_eq_true_2 _ Hin); simpl.
  unfold try_except, bind, raise, ret. by rewrite Hs.
Qed.

(** C1 (amended).  Invoking [execute_tool] with a tool name absent from the
    registry never contacts the remote service (the trace of external calls
    is unchanged) and raises the unknown-tool [ValueError]; no result
    dictionary, with [success] false or otherwise, is produced. *)
Theorem execute_tool_unknown_raises self tool_name arguments tr :
  tool_name ∉ registry_keys self ->
  execute_tool self tool_name arguments tr =
    (Raised (ValueError ("Tool '" +:+ tool_name
                         +:+ "' not available. Available tools: "
                         +:+ repr_list (registry_keys self))),
     tr).
Proof.
  intros Hnot. unfold execute_tool.
  by rewrite (bool_decide_eq_false_2 _ Hnot).
Qed.

(** *** The convenience operations *)

(** C9.  A call to [list_events] that supplies no result cap hands the
    bridge an argument map with [maxResults] equal to 10; without a time
    window the map has neither [timeMin] nor [timeMax], so that with both
    left out it is exactly [{"maxResults": 10}]. *)
Theorem list_events_default_cap self time_min time_max :
  list_events self time_min time_max None =
    execute_tool self "list_calendar_events"
      (list_events_args time_min time_max None)
  /\ list_events_args time_min time_max None !! "maxResults" = Some (JNum 10)
  /\ (forall max_results,
        list_events_args None None max_results !! "timeMin" = None
        /\ list_events_args None None max_results !! "timeMax" = None)
  /\ list_events_args None None None = {[ "maxResults" := JNum 10 ]}.
Proof.
  split; [reflexivity|]. split; [|split; [|reflexivity]].
  - unfold list_events_args.
    destruct (truthy_str time_min), (truthy_str time_max); by simplify_map_eq.
  - intros max_results. unfold list_events_args; simpl. by simplify_map_eq.
Qed.

(** With a connected session and the tool registered, that argument map is
    what reaches the remote service. *)
Lemma list_events_remote_call self (s : ClientSession Content) time_min time_max max_results tr :
  "list_calendar_events" ∈ registry_keys self ->
  session self = Some s ->
  snd (list_events self time_min time_max max_results tr) =
    tr ++ [RemoteCall "list_calendar_events"
             (list_events_args time_min time_max max_results)].
Proof.
  intros Hin Hs. unfold list_events.
  by rewrite (execute_tool_connected _ s _ _ _ Hin Hs).
Qed.

(** C10.  In [create_calendar_event] an empty [description] and an empty
    [attendees] list leave the corresponding key out of the argument map,
    which is then the map built when the argument is absent; [start] and
    [end] always carry the given time and the time zone
    [America/New_York]. *)
Theorem create_event_optional_fields self summary start_time end_time
    description attendees :
  let args := create_calendar_event_args summary start_time end_time in
  create_calendar_event self summary start_time end_time description attendees =
    execute_tool self "create_calendar_event" (args description attendees)
  /\ args (Some "") attendees !! "description" = None
  /\ args description (Some []) !! "attendees" = None
  /\ args (Some "") attendees = args None attendees
  /\ args description (Some []) = args description None
  /\ (args description attendees !! "start") ≫= json_field "timeZone" =
       Some (JStr "America/New_York")
  /\ (args description attendees !! "end") ≫= json_field "timeZone" =
       Some (JStr "America/New_York")
  /\ (args description attendees !! "start") ≫= json_field "dateTime" =
       Some (JStr start_time)
  /\ (args description attendees !! "end") ≫= json_field "dateTime" =
       Some (JStr end_time).
Proof.
  intros args. subst args. unfold create_calendar_event_args.
  split; [reflexivity|].
  split; [simpl; destruct (truthy_list attendees); by simplify_map_eq|].
  split; [simpl; destruct (truthy_str description); by simplify_map_eq|].
  split; [reflexivity|]. split; [reflexivity|].
  destruct (truthy_str description), (truthy_list attendees);
    simplify_map_eq; simpl; by simplify_map_eq.
Qed.

(** *** The tool registry adapter *)

(** C6.  [_format_tools_for_claude] returns one specification per
    descriptor: the output has the length of the input, and the entry at
    each position carries the name, description and input schema of the
    descriptor at that position. *)
Theorem format_tools_one_to_one (mcp_tools : list ToolDescriptor.t) :
  length (_format_tools_for_claude mcp_tools) = length mcp_tools
  /\ forall i : nat,
       _format_tools_for_claude mcp_tools !! i =
       (fun tool => ClaudeTool.mk (ToolDescriptor.name tool)
                      (ToolDescriptor.description tool)
                      (ToolDescriptor.input_schema tool)) <$> (mcp_tools !! i).
Proof.
  rewrite format_tools_fmap. split.
  - apply length_fmap.
  - intros i. apply list_lookup_fmap.
Qed.

(** C7 (amended).  [_format_tools_for_claude] performs no validation: a
    descriptor whose name is empty is copied into the output like any
    other, at its own position. *)
Theorem format_tools_keeps_empty_name (mcp_tools : list ToolDescriptor.t)
    (i : nat) (tool : ToolDescriptor.t) :
  mcp_tools !! i = Some tool ->
  ToolDescriptor.name tool = "" ->
  _format_tools_for_claude mcp_tools !! i =
    Some (ClaudeTool.mk "" (ToolDescriptor.description tool)
            (ToolDescriptor.input_schema tool)).
Proof.
  intros Hi Hname. rewrite format_tools_fmap, list_lookup_fmap, Hi; simpl.
  by rewrite Hname.
Qed.

(** *** The conversation orchestrator *)

Lemma add_final_responses_app (rs : list (ResultEntry Content)) blocks :
  add_final_responses rs blocks = rs ++ final_responses blocks.
Proof.
  unfold add_final_responses, final_responses.
  revert rs; induction blocks as [|b blocks IH]; intros rs; simpl.
  - by rewrite app_nil_r.
  - destruct b; rewrite IH; [by rewrite <- app_assoc | done | done].
Qed.

Lemma execute_tool_not_registered self tool_name arguments tr :
  tool_name ∉ registry_keys self ->
  execute_tool self tool_name arguments tr =
    (Raised (ValueError ("Tool '" +:+ tool_name
                         +:+ "' not available. Available tools: "
                         +:+ repr_list (registry_keys self))),
     tr).
Proof.
  intros Hnot. unfold execute_tool.
  by rewrite (bool_decide_eq_false_2 _ Hnot).
Qed.

(** What a completed run of the segment loop has done, for a connected
    bridge: the external calls are the round trips of the tool uses, the
    results extend the ones built before, and every remote call that raised
    left a failed [tool_execution] entry. *)
Lemma handle_blocks_Ok (this : ClaudeMCPIntegration Content) c s response :
  mcp_client this = Some c ->
  session c = Some s ->
  forall blocks acc tr rs tr',
    handle_blocks this response blocks acc tr = (Ok rs, tr') ->
    exists payloads new,
      length payloads = length (tool_uses blocks)
      /\ tr' = tr ++ tool_round_trips response (tool_uses blocks) payloads
      /\ rs = acc ++ new
      /\ forall n a e,
           (n, a, e) ∈ remote_failures s tr
                         (tool_round_trips response (tool_uses blocks) payloads) ->
           exists tool_id,
             ToolExecutionEntry n tool_id a (ToolFailure (str e) n) ∈ new.
Proof.
  intros Hc Hs.
  induction blocks as [|b blocks IH]; intros acc tr rs tr' H; simpl in H.
  - injection H as <- <-. exists [], []. simpl.
    rewrite !app_nil_r. repeat split. intros n a e Hin. by apply elem_of_nil in Hin.
  - destruct b as [text|tool_id tool_name tool_input|ty].
    + apply IH in H as (payloads & new & Hlen & Htr & Hrs & Hfail).
      exists payloads, (TextEntry text :: new). simpl.
      repeat split; [done | done | by rewrite Hrs, <- app_assoc |].
      intros n a e Hin. destruct (Hfail n a e Hin) as [i Hi].
      exists i. by apply list_elem_of_further.
    + apply bind_Ok_inv in H as (r & tr1 & Hexec & H).
      apply bind_Ok_inv in H as (payload & tr2 & Hdump & H).
      apply bind_Ok_inv in H as (fu & tr3 & Hfu & H).
      unfold lift in Hdump. injection Hdump as Hdump <-.
      unfold create_message, external in Hfu. injection Hfu as Hfu <-.
      unfold mcp_execute_tool in Hexec. rewrite Hc in Hexec.
      destruct (decide (tool_name ∈ registry_keys c)) as [Hin|Hnot];
        [| by rewrite (execute_tool_not_registered _ _ _ _ Hnot) in Hexec].
      rewrite (execute_tool_connected _ s _ _ _ Hin Hs) in Hexec.
      injection Hexec as Hr <-.
      rewrite add_final_responses_app in H.
      apply IH in H as (payloads & new & Hlen & Htr & Hrs & Hfail).
      exists (payload :: payloads),
        (ToolExecutionEntry tool_name tool_id tool_input r
           :: final_responses (Response.content fu) ++ new).
      simpl. repeat split.
      * by rewrite Hlen.
      * rewrite Htr. unfold tool_round_trips. by rewrite <- !app_assoc.
      * rewrite Hrs. by rewrite <- !app_assoc.
      * intros n a e Hfailed.
        apply elem_of_app in Hfailed as [Hhere|Hlater].
        -- exists tool_id. rewrite <- Hr.
           destruct (call_tool s tr tool_name tool_input) as [?|e0];
             [by apply elem_of_nil in Hhere|].
           apply list_elem_of_singleton in Hhere. injection Hhere as -> -> ->.
           apply list_elem_of_here.
        -- simpl in Hlater. destruct (Hfail n a e Hlater) as [i Hi].
           exists i. apply list_elem_of_further, elem_of_app. by right.
    + apply IH in H as (payloads & new & Hlen & Htr & Hrs & Hfail).
      exists payloads, new. by simpl.
Qed.

Lemma remote_calls_round_trips response uses payloads :
  length payloads = length uses ->
  remote_calls (tool_round_trips response uses payloads) =
    (fun u : string * string * gmap string Json => (u.1.2, u.2)) <$> uses.
Proof.
  revert payloads; induction uses as [|[[i n] a] uses IH];
    intros [|p payloads] Hlen; simpl in *; try done.
  f_equal. apply IH. lia.
Qed.

Lemma model_requests_round_trips response uses payloads :
  length payloads = length uses ->
  model_requests (tool_round_trips response uses payloads) =
    zip_with (fun (u : string * string * gmap string Json) payload =>
                follow_up_request response u.1.1 payload) uses payloads.
Proof.
  revert payloads; induction uses as [|[[i n] a] uses IH];
    intros [|p payloads] Hlen; simpl in *; try done.
  f_equal. apply IH. lia.
Qed.

Lemma handle_blocks_text (this : ClaudeMCPIntegration Content) response texts :
  forall acc tr,
    handle_blocks this response (TextBlock <$> texts) acc tr =
      (Ok (acc ++ (TextEntry <$> texts)), tr).
Proof.
  induction texts as [|text texts IH]; intros acc tr; simpl.
  - by rewrite app_nil_r.
  - by rewrite IH, <- app_assoc.
Qed.

(** [process_request] itself never raises. *)
Lemma process_request_total (this : ClaudeMCPIntegration Content) user_message tr :
  exists outcome tr', process_request this user_message tr = (Ok outcome, tr').
Proof.
  unfold process_request, try_except, ret.
  destruct (process_request_body this user_message tr) as [[o|e] tr']; eauto.
Qed.

(** A turn attempted before the bridge exists fails without any external
    call. *)
Lemma process_request_without_bridge (this : ClaudeMCPIntegration Content) user_message tr :
  mcp_client this = None ->
  process_request this user_message tr =
    (Ok (Failed ("Failed to process request: "
                 +:+ "'NoneType' object has no attribute 'get_available_tools'")),
     tr).
Proof.
  intros Hnone. unfold process_request, try_except, process_request_body, bind.
  by rewrite Hnone.
Qed.

(** C2.  When an exception is raised anywhere inside the turn, that is, when
    the [try] block of [process_request] raises [e], [process_request]
    returns an outcome with [success] false whose error string is
    ["Failed to process request: "] followed by [str(e)], and which has no
    [results] at all. *)
Theorem process_request_catches (this : ClaudeMCPIntegration Content)
    user_message tr e tr' :
  process_request_body this user_message tr = (Raised e, tr') ->
  exists outcome,
    process_request this user_message tr = (Ok outcome, tr')
    /\ success outcome = false
    /\ error outcome = Some ("Failed to process request: " +:+ str e)
    /\ results outcome = None.
Proof.
  intros Hbody. exists (Failed ("Failed to process request: " +:+ str e)).
  unfold process_request, try_except. by rewrite Hbody.
Qed.

(** C4 (amended).  When [_handle_claude_response], with a connected bridge,
    completes on a response with N [tool_use] segments, the external calls
    it made are exactly N round trips, in the order of the segments: for
    each segment the remote invocation of its tool with its input,
    followed at once by one follow-up request answering its identifier.
    Hence there are exactly N remote invocations and exactly N follow-up
    requests. *)
Theorem tool_uses_round_trips (this : ClaudeMCPIntegration Content) c s
    response tr outcome tr' :
  mcp_client this = Some c ->
  session c = Some s ->
  _handle_claude_response this response tr = (Ok outcome, tr') ->
  let uses := tool_uses (Response.content response) in
  exists payloads evs,
    length payloads = length uses
    /\ evs = tool_round_trips response uses payloads
    /\ tr' = tr ++ evs
    /\ remote_calls evs =
         (fun u : string * string * gmap string Json => (u.1.2, u.2)) <$> uses
    /\ length (remote_calls evs) = length uses
    /\ length (model_requests evs) = length uses
    /\ answered_ids <$> model_requests evs =
         (fun u : string * string * gmap string Json => [u.1.1]) <$> uses.
Proof.
  intros Hc Hs Hhandle uses. subst uses.
  unfold _handle_claude_response in Hhandle.
  apply bind_Ok_inv in Hhandle as (rs & tr3 & Hloop & Hret).
  injection Hret as <- <-.
  destruct (handle_blocks_Ok _ _ _ _ Hc Hs _ _ _ _ _ Hloop)
    as (payloads & new & Hlen & Htr & _ & _).
  revert Hlen Htr.
  generalize (tool_uses (Response.content response)) as uses.
  intros uses Hlen Htr.
  exists payloads, (tool_round_trips response uses payloads).
  rewrite (remote_calls_round_trips _ _ _ Hlen).
  rewrite (model_requests_round_trips _ _ _ Hlen).
  repeat split; try done.
  - by rewrite length_fmap.
  - rewrite length_zip_with. lia.
  - clear -Hlen.
    revert payloads Hlen; induction uses as [|[[i n] a] uses IH];
      intros [|p payloads] Hlen; simpl in *; try done.
    f_equal. apply IH. lia.
Qed.

(** C5.  On a response made of text segments only,
    [_handle_claude_response] completes with exactly one [text] entry per
    segment, in order, and makes no external call: the trace is unchanged,
    so the bridge is not invoked (and need not even exist). *)
Theorem text_only_response (this : ClaudeMCPIntegration Content) response texts tr :
  Response.content response = TextBlock <$> texts ->
  _handle_claude_response this response tr =
    (Ok (Completed (TextEntry <$> texts) response), tr).
Proof.
  intros Htexts. unfold _handle_claude_response.
  rewrite Htexts.
  by rewrite (bind_Ok _ _ _ _ _ (handle_blocks_text this response texts [] tr)).
Qed.

(** The same at the level of a whole turn: one model request, no remote
    call. *)
Lemma text_only_turn (this : ClaudeMCPIntegration Content) c user_message
    response texts tr :
  mcp_client this = Some c ->
  messages_create (client this) tr
    (turn_request (_format_tools_for_claude (get_available_tools c))
       user_message) = Ok response ->
  Response.content response = TextBlock <$> texts ->
  process_request this user_message tr =
    (Ok (Completed (TextEntry <$> texts) response),
     tr ++ [ModelRequest
              (turn_request (_format_tools_for_claude (get_available_tools c))
                 user_message)]).
Proof.
  intros Hc Hanswer Htexts.
  unfold process_request, try_except, process_request_body.
  rewrite Hc. unfold bind at 1, ret at 1.
  unfold bind at 1, create_message, external. rewrite Hanswer.
  unfold bind at 1, _handle_claude_response. rewrite Htexts.
  by rewrite (bind_Ok _ _ _ _ _ (handle_blocks_text this response texts [] _)).
Qed.

Lemma handle_blocks_text_app (this : ClaudeMCPIntegration Content) response
    texts blocks :
  forall acc tr,
    handle_blocks this response ((TextBlock <$> texts) ++ blocks) acc tr =
    handle_blocks this response blocks (acc ++ (TextEntry <$> texts)) tr.
Proof.
  induction texts as [|text texts IH]; intros acc tr; simpl.
  - by rewrite app_nil_r.
  - by rewrite IH, <- app_assoc.
Qed.

(** Inside a turn, the first request for an unregistered tool ends the
    turn: the outcome is a failure carrying the unknown-tool message, the
    text gathered so far is dropped, and the only external call is the
    turn's model request. *)
Lemma unknown_tool_fails_turn (this : ClaudeMCPIntegration Content) c
    user_message response texts tool_id tool_name tool_input rest tr :
  mcp_client this = Some c ->
  messages_create (client this) tr
    (turn_request (_format_tools_for_claude (get_available_tools c))
       user_message) = Ok response ->
  Response.content response =
    (TextBlock <$> texts) ++ ToolUseBlock tool_id tool_name tool_input :: rest ->
  tool_name ∉ registry_keys c ->
  process_request this user_message tr =
    (Ok (Failed ("Failed to process request: "
                 +:+ ("Tool '" +:+ tool_name
                      +:+ "' not available. Available tools: "
                      +:+ repr_list (registry_keys c)))),
     tr ++ [ModelRequest
              (turn_request (_format_tools_for_claude (get_available_tools c))
                 user_message)]).
Proof.
  intros Hc Hanswer Hblocks Hnot.
  unfold process_request, try_except, process_request_body.
  rewrite Hc. unfold bind at 1, ret at 1.
  unfold bind at 1, create_message, external. rewrite Hanswer.
  unfold bind at 1, _handle_claude_response. rewrite Hblocks.
  unfold bind at 1. rewrite handle_blocks_text_app. simpl.
  unfold bind at 1, mcp_execute_tool. rewrite Hc.
  by rewrite (execute_tool_not_registered _ _ _ _ Hnot).
Qed.

(** *** The command loop *)

Lemma is_sentinel_spec command :
  is_sentinel command = true <-> lower command = "quit" \/ lower command = "exit".
Proof.
  unfold is_sentinel. rewrite bool_decide_eq_true.
  rewrite !elem_of_cons. split; [|tauto].
  intros [?|[?|Hnil]]; [tauto | tauto | by apply elem_of_nil in Hnil].
Qed.

(** C8.  [process_command] treats a command as the terminating sentinel
    exactly when its lower-cased form is ["quit"] or ["exit"].  A sentinel
    returns the quit action with no external call; any other command is
    passed unchanged to [process_request], whose outcome and external calls
    are those of [process_command]. *)
Theorem process_command_sentinel (assistant : CalendarAssistant Content) command tr :
  (lower command = "quit" \/ lower command = "exit" ->
   process_command assistant command tr = (Ok QuitAction, tr))
  /\ (~ (lower command = "quit" \/ lower command = "exit") ->
      exists outcome tr',
        process_request (integration assistant) command tr = (Ok outcome, tr')
        /\ process_command assistant command tr = (Ok (TurnResult outcome), tr'))
  /\ (fst (process_command assistant command tr) = Ok QuitAction <->
      lower command = "quit" \/ lower command = "exit").
Proof.
  pose proof (is_sentinel_spec command) as Hspec.
  set (sentinel := lower command = "quit" \/ lower command = "exit") in *.
  unfold process_command.
  destruct (process_request_total (integration assistant) command tr)
    as (outcome & tr' & Hturn).
  destruct (is_sentinel command) eqn:Hs.
  - assert sentinel as Hyes by (by apply Hspec).
    split; [done|]. split; [tauto|]. simpl. tauto.
  - assert (~ sentinel) as Hno by (intros Hyes; apply Hspec in Hyes; done).
    rewrite (bind_Ok _ _ _ _ _ Hturn). unfold ret.
    split; [tauto|]. split; [eauto|]. simpl. split; [done | tauto].
Qed.

(** *** Completion *)

(** A remote failure alone never aborts the segment loop: when every
    requested tool is registered, every payload serialises and the backend
    answers every request, the loop completes, whatever the remote service
    does. *)
Lemma handle_blocks_completes (this : ClaudeMCPIntegration Content) c response :
  mcp_client this = Some c ->
  (forall content, exists text, dumps_content content = Ok text) ->
  (forall tr req, exists resp, messages_create (client this) tr req = Ok resp) ->
  forall blocks,
    (forall u, u ∈ tool_uses blocks -> u.1.2 ∈ registry_keys c) ->
    forall acc tr,
      exists rs tr', handle_blocks this response blocks acc tr = (Ok rs, tr').
Proof.
  intros Hc Hdumps Hbackend.
  induction blocks as [|b blocks IH]; intros Hreg acc tr; simpl.
  - unfold ret. eauto.
  - destruct b as [text|tool_id tool_name tool_input|ty]; simpl in Hreg.
    + apply IH, Hreg.
    + assert (tool_name ∈ registry_keys c) as Hin
        by (apply (Hreg (tool_id, tool_name, tool_input)), list_elem_of_here).
      assert (exists r tr1,
                 mcp_execute_tool this tool_name tool_input tr = (Ok r, tr1))
        as (r & tr1 & Hexec).
      { unfold mcp_execute_tool. rewrite Hc.
        destruct (session c) as [s|] eqn:Hs.
        - rewrite (execute_tool_connected _ s _ _ _ Hin Hs). eauto.
        - rewrite (execute_tool_disconnected _ _ _ _ Hin Hs). eauto. }
      rewrite (bind_Ok _ _ _ _ _ Hexec).
      assert (exists payload, json_dumps r = Ok payload) as [payload Hpayload].
      { destruct r as [content n|e n]; simpl; [|eauto].
        destruct (Hdumps content) as [text ->]. eauto. }
      unfold bind at 1, lift. rewrite Hpayload.
      unfold bind at 1, create_message, external.
      destruct (Hbackend tr1 (follow_up_request response tool_id payload))
        as [resp ->].
      apply IH. intros u Hu. apply Hreg. by apply list_elem_of_further.
    + apply IH, Hreg.
Qed.

(** C3 (amended).  In a turn in which the model backend answers every
    request, every payload serialises and the response asks only for
    registered tools, a remote invocation that raises does not end the
    turn: the turn completes with [success] true, and every remote
    invocation of the turn that raised [e] is recorded in the results as a
    [tool_execution] entry for that tool and those arguments whose result
    has [success] false and [error] equal to [str(e)], which is empty when
    [e] stringifies to the empty string. *)
Theorem remote_failure_recorded (this : ClaudeMCPIntegration Content) c s
    user_message tr response :
  mcp_client this = Some c ->
  session c = Some s ->
  (forall content, exists text, dumps_content content = Ok text) ->
  (forall tr req, exists resp, messages_create (client this) tr req = Ok resp) ->
  messages_create (client this) tr
    (turn_request (_format_tools_for_claude (get_available_tools c))
       user_message) = Ok response ->
  (forall u, u ∈ tool_uses (Response.content response) ->
             u.1.2 ∈ registry_keys c) ->
  exists outcome tr' evs rs,
    process_request this user_message tr = (Ok outcome, tr')
    /\ success outcome = true
    /\ tr' = tr ++ evs
    /\ results outcome = Some rs
    /\ forall n a e,
         (n, a, e) ∈ remote_failures s tr evs ->
         exists tool_id failed,
           ToolExecutionEntry n tool_id a failed ∈ rs
           /\ tool_success failed = false
           /\ tool_error failed = Some (str e).
Proof.
  intros Hc Hs Hdumps Hbackend Hanswer Hreg.
  set (first := turn_request
                  (_format_tools_for_claude (get_available_tools c))
                  user_message) in *.
  destruct (handle_blocks_completes this c response Hc Hdumps Hbackend
              (Response.content response) Hreg [] (tr ++ [ModelRequest first]))
    as (rs & tr' & Hloop).
  destruct (handle_blocks_Ok _ _ _ _ Hc Hs _ _ _ _ _ Hloop)
    as (payloads & new & _ & Htr & Hrs & Hfail).
  simpl in Hrs. subst rs.
  exists (Completed new response), tr'.
  eexists (ModelRequest first :: _), new.
  split_and!.
  - unfold process_request, try_except, process_request_body.
    rewrite Hc. unfold bind at 1, ret at 1.
    unfold bind at 1, create_message, external. fold first. rewrite Hanswer.
    unfold bind at 1, _handle_claude_response.
    by rewrite (bind_Ok _ _ _ _ _ Hloop).
  - done.
  - rewrite Htr, <- app_assoc. reflexivity.
  - done.
  - intros n a e Hin. simpl in Hin.
    destruct (Hfail n a e Hin) as [tool_id Hentry]. eauto.
Qed.

End Properties.

(* ===================================================================== *)
(** ** The scenarios, run *)
(* ===================================================================== *)

Lemma execute_tool_unknown_raises_witness :
  ("delete_calendar" ∉ registry_keys Scenario.bridge)
  /\ execute_tool Scenario.bridge "delete_calendar" ∅ [] =
       (Raised (ValueError
          "Tool 'delete_calendar' not available. Available tools: ['create_calendar_event', 'list_calendar_events']"),
        []).
Proof.
  assert ("delete_calendar" ∉ registry_keys Scenario.bridge) as Hnot.
  { apply (bool_decide_unpack _). vm_compute. exact I. }
  split; [exact Hnot|].
  rewrite (execute_tool_unknown_raises Scenario.bridge "delete_calendar" ∅ [] Hnot).
  reflexivity.
Defined.

(** The bridge, asked for a tool it does not know, returns no result
    dictionary at all. *)
Lemma execute_tool_unknown_returns_nothing :
  ("delete_calendar" ∉ registry_keys Scenario.bridge)
  /\ ~ exists r tr',
        execute_tool Scenario.bridge "delete_calendar" ∅ [] = (Ok r, tr')
        /\ tool_success r = false.
Proof.
  split.
  - apply (bool_decide_unpack _). vm_compute. exact I.
  - intros (r & tr' & Hrun & _). vm_compute in Hrun. discriminate Hrun.
Qed.

Lemma process_request_catches_witness :
  process_request_body Scenario.confused "Delete my calendar" [] =
    (Raised (ValueError
       "Tool 'delete_calendar' not available. Available tools: ['create_calendar_event', 'list_calendar_events']"),
     [ModelRequest (Scenario.first_request "Delete my calendar")])
  /\ exists outcome,
       process_request Scenario.confused "Delete my calendar" [] =
         (Ok outcome, [ModelRequest (Scenario.first_request "Delete my calendar")])
       /\ success outcome = false
       /\ error outcome =
            Some "Failed to process request: Tool 'delete_calendar' not available. Available tools: ['create_calendar_event', 'list_calendar_events']"
       /\ results outcome = None.
Proof.
  assert (process_request_body Scenario.confused "Delete my calendar" [] =
    (Raised (ValueError
       "Tool 'delete_calendar' not available. Available tools: ['create_calendar_event', 'list_calendar_events']"),
     [ModelRequest (Scenario.first_request "Delete my calendar")])) as Hbody
    by (vm_compute; reflexivity).
  split; [exact Hbody|].
  exact (process_request_catches Scenario.confused "Delete my calendar" [] _ _ Hbody).
Defined.

Lemma remote_failure_recorded_witness :
  exists outcome tr' evs rs,
    process_request Scenario.listing "List my events" [] = (Ok outcome, tr')
    /\ success outcome = true
    /\ tr' = [] ++ evs
    /\ results outcome = Some rs
    /\ forall n a e,
         (n, a, e) ∈ remote_failures Scenario.service [] evs ->
         exists tool_id failed,
           ToolExecutionEntry n tool_id a failed ∈ rs
           /\ tool_success failed = false
           /\ tool_error failed = Some (str e).
Proof.
  apply (remote_failure_recorded Scenario.listing Scenario.bridge
           Scenario.service "List my events" []
           (Response.mk Scenario.list_request) eq_refl eq_refl).
  - intros content. eexists. reflexivity.
  - intros tr req. destruct tr; eexists; reflexivity.
  - reflexivity.
  - intros u Hu. apply list_elem_of_singleton in Hu. rewrite Hu.
    apply (bool_decide_unpack _). vm_compute. exact I.
Defined.

(** A remote failure neither guarantees that the turn succeeds nor that
    the recorded error is non-empty: when the follow-up request raises, the
    turn fails and keeps no entry; when the cause stringifies to the empty
    string, so does the recorded error. *)
Lemma remote_failure_may_abort_or_be_silent :
  (let run := process_request Scenario.flaky "List my events" [] in
   remote_failures Scenario.service [] (snd run) =
     [("list_calendar_events", list_events_args None None None,
       OtherError "McpError" "Invalid arguments")]
   /\ fst run = Ok (Failed "Failed to process request: Overloaded")
   /\ (forall outcome, fst run = Ok outcome ->
        success outcome = false /\ results outcome = None))
  /\ (let run := process_request Scenario.silent "List my events" [] in
      remote_failures Scenario.silent_service [] (snd run) =
        [("list_calendar_events", list_events_args None None None,
          OtherError "TimeoutError" "")]
      /\ fst run = Ok Scenario.silent_outcome
      /\ forall n i a r,
           ToolExecutionEntry n i a r ∈
             default [] (results Scenario.silent_outcome) ->
           tool_error r = Some "").
Proof.
  split.
  - split; [vm_compute; reflexivity|]. split; [vm_compute; reflexivity|].
    intros outcome Hrun. vm_compute in Hrun. injection Hrun as <-. done.
  - split; [vm_compute; reflexivity|]. split; [vm_compute; reflexivity|].
    intros n i a r Hin. simpl in Hin.
    repeat (apply elem_of_cons in Hin as [Hin|Hin]; [try discriminate Hin|]).
    + by injection Hin as -> -> -> ->.
    + by apply elem_of_nil in Hin.
Qed.

Lemma tool_uses_round_trips_witness :
  exists payloads evs,
    length payloads = 2
    /\ evs = tool_round_trips Scenario.booking_response
               (tool_uses (Response.content Scenario.booking_response)) payloads
    /\ snd (_handle_claude_response Scenario.listing
              Scenario.booking_response []) = [] ++ evs
    /\ remote_calls evs =
         [("create_calendar_event",
           create_calendar_event_args "Standup" "2025-01-02T09:00:00"
             "2025-01-02T09:30:00" None None);
          ("list_calendar_events", list_events_args None None None)]
    /\ length (remote_calls evs) = 2
    /\ length (model_requests evs) = 2
    /\ answered_ids <$> model_requests evs = [["toolu_01"]; ["toolu_02"]].
Proof.
  eapply (tool_uses_round_trips Scenario.listing Scenario.bridge
            Scenario.service Scenario.booking_response [] _
            (snd (_handle_claude_response Scenario.listing
                    Scenario.booking_response []))
            eq_refl eq_refl).
  reflexivity.
Defined.

(** A response with tool uses does not always lead to as many remote
    invocations and follow-up requests: a tool the registry does not know
    is never invoked and never followed up, and a follow-up request that
    raises ends the turn before the remaining tool uses are looked at. *)
Lemma tool_use_without_round_trip :
  (let response := Response.mk [ToolUseBlock "toolu_01" "delete_calendar" ∅] in
   let run := _handle_claude_response Scenario.confused response [] in
   length (tool_uses (Response.content response)) = 1
   /\ remote_calls (snd run) = []
   /\ model_requests (snd run) = [])
  /\ (let run := _handle_claude_response Scenario.flaky
                   Scenario.booking_response [] in
      length (tool_uses (Response.content Scenario.booking_response)) = 2
      /\ length (remote_calls (snd run)) = 1
      /\ length (model_requests (snd run)) = 1
      /\ fst run = Raised (OtherError "APIError" "Overloaded")).
Proof.
  split; repeat split; vm_compute; reflexivity.
Qed.

Lemma text_only_response_witness :
  Response.content (Response.mk [TextBlock "You have no events."]) =
    TextBlock <$> ["You have no events."]
  /\ _handle_claude_response Scenario.chatty
       (Response.mk [TextBlock "You have no events."]) [] =
       (Ok (Completed [TextEntry "You have no events."]
              (Response.mk [TextBlock "You have no events."])), []).
Proof.
  split; [reflexivity|].
  exact (text_only_response Scenario.chatty
           (Response.mk [TextBlock "You have no events."])
           ["You have no events."] [] eq_refl).
Defined.

Lemma format_tools_keeps_empty_name_witness :
  [Scenario.unnamed_tool] !! 0 = Some Scenario.unnamed_tool
  /\ ToolDescriptor.name Scenario.unnamed_tool = ""
  /\ _format_tools_for_claude [Scenario.unnamed_tool] !! 0 =
       Some (ClaudeTool.mk "" "A tool without a name" (JObj ∅)).
Proof.
  split; [reflexivity|]. split; [reflexivity|].
  exact (format_tools_keeps_empty_name [Scenario.unnamed_tool] 0
           Scenario.unnamed_tool eq_refl eq_refl).
Defined.

(** A descriptor with an empty name is accepted into the output. *)
Lemma format_tools_accepts_unnamed :
  ToolDescriptor.name Scenario.unnamed_tool = ""
  /\ _format_tools_for_claude [Scenario.unnamed_tool] =
       [ClaudeTool.mk "" "A tool without a name" (JObj ∅)]
  /\ ~ (forall spec,
          spec ∈ _format_tools_for_claude [Scenario.unnamed_tool] ->
          ClaudeTool.name spec <> "").
Proof.
  split; [reflexivity|]. split; [reflexivity|].
  intros Hvalid.
  apply (Hvalid (ClaudeTool.mk "" "A tool without a name" (JObj ∅)));
    [apply list_elem_of_here | reflexivity].
Qed.

Lemma process_command_sentinel_witness :
  (lower "QUIT" = "quit" \/ lower "QUIT" = "exit")
  /\ process_command Scenario.assistant "QUIT" [] = (Ok QuitAction, [])
  /\ ~ (lower "List my events" = "quit" \/ lower "List my events" = "exit")
  /\ exists outcome tr',
       process_request (integration Scenario.assistant) "List my events" [] =
         (Ok outcome, tr')
       /\ process_command Scenario.assistant "List my events" [] =
            (Ok (TurnResult outcome), tr').
Proof.
  assert (lower "QUIT" = "quit" \/ lower "QUIT" = "exit") as Hquit
    by (left; reflexivity).
  assert (~ (lower "List my events" = "quit" \/ lower "List my events" = "exit"))
    as Hturn by (intros [H|H]; vm_compute in H; discriminate H).
  split; [exact Hquit|]. split.
  - exact (proj1 (process_command_sentinel Scenario.assistant "QUIT" []) Hquit).
  - split; [exact Hturn|].
    exact (proj1 (proj2 (process_command_sentinel Scenario.assistant
                           "List my events" [])) Hturn).
Defined.

(* ===================================================================== *)
(** ** Further properties of the bridge *)
(* ===================================================================== *)

Section BridgeProperties.

Context {Content : Type} `{!Runtime Content}.

Implicit Types (self : CalendarMCPClient Content) (tr : list Event).

(** X1.  For a registered tool and a connected session [execute_tool]
    never raises.  It makes exactly one remote call, with the given name and
    arguments, and returns a dictionary for that tool: the payload with
    [success] true when the call answers, [str(e)] with [success] false
    when the call raises [e]. *)
Theorem execute_tool_registered_reports self (s : ClientSession Content)
    tool_name arguments tr :
  tool_name ∈ registry_keys self ->
  session self = Some s ->
  exists r,
    execute_tool self tool_name arguments tr =
      (Ok r, tr ++ [RemoteCall tool_name arguments])
    /\ (forall payload,
         call_tool s tr tool_name arguments = Ok payload ->
         r = ToolSuccess payload tool_name /\ tool_success r = true)
    /\ (forall e,
         call_tool s tr tool_name arguments = Raised e ->
         r = ToolFailure (str e) tool_name /\ tool_success r = false).
Proof.
  intros Hin Hs. rewrite (execute_tool_connected _ s _ _ _ Hin Hs).
  eexists. split; [reflexivity|].
  split; intros x Hx; rewrite Hx; done.
Qed.

(** X2.  [execute_tool] raises exactly when the tool is not registered, so
    a failure of the remote service or a missing session never surfaces as
    an exception.  Its only external effect is at most one remote call,
    made exactly when the tool is registered and a session exists. *)
Theorem execute_tool_raises_iff_unregistered self tool_name arguments tr :
  ((exists e, fst (execute_tool self tool_name arguments tr) = Raised e) <->
   tool_name ∉ registry_keys self)
  /\ snd (execute_tool self tool_name arguments tr) =
       tr ++ (if bool_decide (tool_name ∈ registry_keys self)
              then match session self with
                   | Some _ => [RemoteCall tool_name arguments]
                   | None => []
                   end
              else []).
Proof.
  destruct (decide (tool_name ∈ registry_keys self)) as [Hin|Hnot].
  - rewrite (bool_decide_eq_true_2 _ Hin).
    destruct (session self) as [s|] eqn:Hs.
    + rewrite (execute_tool_connected _ s _ _ _ Hin Hs). simpl.
      split; [|done]. split; [by intros [e He] | done].
    + rewrite (execute_tool_disconnected _ _ _ _ Hin Hs). simpl.
      rewrite app_nil_r. split; [|done]. split; [by intros [e He] | done].
  - rewrite (bool_decide_eq_false_2 _ Hnot).
    rewrite (execute_tool_not_registered _ _ _ _ Hnot). simpl.
    rewrite app_nil_r. split; [|done]. split; [done | eauto].
Qed.

(** X3.  [get_available_tools] describes the registry entry by entry, in the
    registry's order: the names of the descriptors are exactly the registry
    keys, and each descriptor takes its description and schema from the
    tool stored under its key. *)
Theorem get_available_tools_lists_registry self :
  ToolDescriptor.name <$> get_available_tools self = registry_keys self
  /\ length (get_available_tools self) = length (tools self)
  /\ forall i : nat,
       get_available_tools self !! i =
       (fun item : string * MCPTool.t =>
          ToolDescriptor.mk item.1 (MCPTool.description item.2)
            (MCPTool.inputSchema item.2)) <$> (tools self !! i).
Proof.
  rewrite get_available_tools_fmap. split; [|split].
  - unfold registry_keys. rewrite <- list_fmap_compose.
    by apply list_fmap_ext.
  - apply length_fmap.
  - intros i. apply list_lookup_fmap.
Qed.

(** X4.  Every tool offered to the model, that is every entry of
    [_format_tools_for_claude (get_available_tools self)], is a registered
    tool: executing it by name never raises the unknown-tool error. *)
Theorem offered_tools_are_executable self (spec : ClaudeTool.t) arguments tr :
  spec ∈ _format_tools_for_claude (get_available_tools self) ->
  ClaudeTool.name spec ∈ registry_keys self
  /\ exists r tr',
       execute_tool self (ClaudeTool.name spec) arguments tr = (Ok r, tr').
Proof.
  intros Hspec.
  assert (ClaudeTool.name spec ∈ registry_keys self) as Hin.
  { rewrite format_tools_fmap, get_available_tools_fmap in Hspec.
    apply list_elem_of_fmap in Hspec as (d & -> & Hd).
    apply list_elem_of_fmap in Hd as ([k t] & -> & Hitem). simpl.
    unfold registry_keys. apply list_elem_of_fmap. by exists (k, t). }
  split; [exact Hin|].
  destruct (session self) as [s|] eqn:Hs.
  - rewrite (execute_tool_connected _ s _ _ _ Hin Hs). eauto.
  - rewrite (execute_tool_disconnected _ _ _ _ Hin Hs). eauto.
Qed.

(** X5.  The argument map of [create_calendar_event] has exactly the keys
    [summary], [start] and [end], plus [description] when a non-empty
    description is given and [attendees] when a non-empty list is given;
    the code never sends any other key. *)
Theorem create_event_args_keys summary start_time end_time description attendees :
  dom (create_calendar_event_args summary start_time end_time
         description attendees) =
    ({[ "summary"; "start"; "end" ]} : gset string)
    ∪ (if truthy_str description then {[ "description" ]} else ∅)
    ∪ (if truthy_list attendees then {[ "attendees" ]} else ∅).
Proof.
  unfold create_calendar_event_args.
  destruct (truthy_str description), (truthy_list attendees);
    rewrite !dom_insert_L, dom_empty_L; set_solver.
Qed.

(** X6.  What [create_calendar_event] is given, it sends: the summary as a
    string, a non-empty description as a string, and a non-empty list of
    attendees as an array with one [{"email": address}] object per
    address, in the order given. *)
Theorem create_event_args_values summary start_time end_time description attendees :
  let args := create_calendar_event_args summary start_time end_time
                description attendees in
  args !! "summary" = Some (JStr summary)
  /\ (forall d, description = Some d -> d <> "" ->
      args !! "description" = Some (JStr d))
  /\ (forall emails, attendees = Some emails -> emails <> [] ->
      args !! "attendees" =
        Some (JArr ((fun email => JObj {[ "email" := JStr email ]}) <$> emails))).
Proof.
  intros args. subst args. unfold create_calendar_event_args.
  split; [|split].
  - destruct (truthy_str description), (truthy_list attendees);
      by simplify_map_eq.
  - intros d -> Hd. simpl.
    destruct (String.eqb_spec d "") as [|_]; [done|]. simpl.
    destruct (truthy_list attendees); by simplify_map_eq.
  - intros emails -> Hne. destruct emails as [|e es]; [done|]. simpl.
    destruct (truthy_str description); by simplify_map_eq.
Qed.

(** X7.  [list_events] forwards any result cap it is given, unchecked; an
    empty string for a time bound counts as no bound, a non-empty one is
    sent as given; and the argument map never has a key besides
    [maxResults], [timeMin] and [timeMax]. *)
Theorem list_events_args_window time_min time_max max_results :
  (forall n, max_results = Some n ->
     list_events_args time_min time_max max_results !! "maxResults" =
       Some (JNum n))
  /\ list_events_args (Some "") time_max max_results =
       list_events_args None time_max max_results
  /\ list_events_args time_min (Some "") max_results =
       list_events_args time_min None max_results
  /\ (forall t, time_min = Some t -> t <> "" ->
      list_events_args time_min time_max max_results !! "timeMin" =
        Some (JStr t))
  /\ (forall t, time_max = Some t -> t <> "" ->
      list_events_args time_min time_max max_results !! "timeMax" =
        Some (JStr t))
  /\ dom (list_events_args time_min time_max max_results) ⊆
       ({[ "maxResults"; "timeMin"; "timeMax" ]} : gset string).
Proof.
  unfold list_events_args. repeat split.
  - intros n ->. simpl.
    destruct (truthy_str time_min), (truthy_str time_max); by simplify_map_eq.
  - intros t -> Ht. simpl.
    destruct (String.eqb_spec t "") as [|_]; [done|]. simpl.
    destruct (truthy_str time_max); by simplify_map_eq.
  - intros t -> Ht. simpl.
    destruct (String.eqb_spec t "") as [|_]; [done|]. simpl.
    destruct (truthy_str time_min); by simplify_map_eq.
  - destruct (truthy_str time_min), (truthy_str time_max);
      rewrite !dom_insert_L, dom_empty_L; intros k; set_unfold; tauto.
Qed.

End BridgeProperties.
(* ===================================================================== *)
(** ** Further properties of the orchestrator *)
(* ===================================================================== *)

Lemma length_lower (s : string) : String.length (lower s) = String.length s.
Proof. induction s as [|c s IH]; simpl; [done | by rewrite IH]. Qed.

Lemma remote_calls_app (evs1 evs2 : list Event) :
  remote_calls (evs1 ++ evs2) = remote_calls evs1 ++ remote_calls evs2.
Proof. apply omap_app. Qed.

Lemma model_requests_app (evs1 evs2 : list Event) :
  model_requests (evs1 ++ evs2) = model_requests evs1 ++ model_requests evs2.
Proof. apply omap_app. Qed.

Section OrchestratorProperties.

Context {Content : Type} `{!Runtime Content}.

Implicit Types (this : ClaudeMCPIntegration Content) (tr : list Event).



(** What any run of the segment loop does to the trace, whether it
    completes or raises. *)
Lemma handle_blocks_run this c response :
  mcp_client this = Some c ->
  forall blocks acc tr,
  exists evs,
    snd (handle_blocks this response blocks acc tr) = tr ++ evs
    /\ (forall req, req ∈ model_requests evs ->
        exists u payload,
          u ∈ tool_uses blocks /\ req = follow_up_request response u.1.1 payload)
    /\ remote_calls evs `prefix_of`
         ((fun u : string * string * gmap string Json => (u.1.2, u.2))
            <$> tool_uses blocks)
    /\ (forall n a, (n, a) ∈ remote_calls evs -> n ∈ registry_keys c)
    /\ (session c = None -> remote_calls evs = [])
    /\ (is_Some (session c) ->
        length (model_requests evs) <= length (remote_calls evs))
    /\ length (remote_calls evs) <= S (length (model_requests evs)).
Proof.
  intros Hc.
  assert (forall (evs : list Event) blocks, evs = [] ->
            (forall req, req ∈ model_requests evs ->
               exists u payload,
                 u ∈ tool_uses blocks
                 /\ req = follow_up_request response u.1.1 payload)
            /\ remote_calls evs `prefix_of`
                 ((fun u : string * string * gmap string Json => (u.1.2, u.2))
                    <$> tool_uses blocks)
            /\ (forall n a, (n, a) ∈ remote_calls evs -> n ∈ registry_keys c)
            /\ (session c = None -> remote_calls evs = [])
            /\ (is_Some (session c) ->
                length (model_requests evs) <= length (remote_calls evs))
            /\ length (remote_calls evs) <= S (length (model_requests evs)))
    as Hquiet.
  { intros evs blocks ->. simpl. repeat split; try done.
    - intros req Hreq. by apply elem_of_nil in Hreq.
    - apply prefix_nil.
    - intros n a Hin. by apply elem_of_nil in Hin.
    - lia. }
  induction blocks as [|b blocks IH]; intros acc tr.
  - exists []. split; [simpl; by rewrite app_nil_r | by apply (Hquiet [] [])].
  - destruct b as [text|tool_id tool_name tool_input|ty]; simpl.
    + apply IH.
    + unfold bind at 1, mcp_execute_tool. rewrite Hc.
      destruct (decide (tool_name ∈ registry_keys c)) as [Hin|Hnot];
        [| rewrite (execute_tool_not_registered _ _ _ _ Hnot);
           exists []; split;
             [simpl; by rewrite app_nil_r
             | by apply (Hquiet [] (ToolUseBlock tool_id tool_name tool_input
                                      :: blocks))]].
      destruct (session c) as [s|] eqn:Hs.
      * rewrite (execute_tool_connected _ s _ _ _ Hin Hs).
        set (r := match call_tool s tr tool_name tool_input with
                  | Ok payload => ToolSuccess payload tool_name
                  | Raised e => ToolFailure (str e) tool_name
                  end).
        unfold bind at 1, lift.
        destruct (json_dumps r) as [payload|e].
        2:{ exists [RemoteCall tool_name tool_input]. simpl. split_and!.
            - done.
            - intros req Hreq. by apply elem_of_nil in Hreq.
            - apply prefix_cons, prefix_nil.
            - intros n a Hcall. apply list_elem_of_singleton in Hcall.
              by injection Hcall as -> ->.
            - done.
            - intros _. lia.
            - lia. }
        unfold bind at 1, create_message, external.
        destruct (messages_create (client this)
                    (tr ++ [RemoteCall tool_name tool_input])
                    (follow_up_request response tool_id payload))
          as [follow_up|e].
        2:{ exists [RemoteCall tool_name tool_input;
                    ModelRequest (follow_up_request response tool_id payload)].
            simpl. rewrite <- app_assoc. split_and!.
            - done.
            - intros req Hreq. apply list_elem_of_singleton in Hreq as ->.
              exists (tool_id, tool_name, tool_input), payload.
              split; [apply list_elem_of_here | done].
            - apply prefix_cons, prefix_nil.
            - intros n a Hcall. apply list_elem_of_singleton in Hcall.
              by injection Hcall as -> ->.
            - done.
            - intros _. lia.
            - lia. }
        destruct (IH (add_final_responses
                        (acc ++ [ToolExecutionEntry tool_name tool_id tool_input r])
                        (Response.content follow_up))
                    ((tr ++ [RemoteCall tool_name tool_input]) ++
                     [ModelRequest (follow_up_request response tool_id payload)]))
          as (evs & Htr & Hreqs & Hprefix & Hreg & Hnone & Hle & Hge).
        exists (RemoteCall tool_name tool_input
                  :: ModelRequest (follow_up_request response tool_id payload)
                  :: evs).
        rewrite Htr, <- !app_assoc. simpl. split_and!.
        -- done.
        -- intros req Hreq. apply elem_of_cons in Hreq as [->|Hreq].
           ++ exists (tool_id, tool_name, tool_input), payload.
              split; [apply list_elem_of_here | done].
           ++ destruct (Hreqs req Hreq) as (u & p & Hu & ->).
              exists u, p. split; [by apply list_elem_of_further | done].
        -- by apply prefix_cons.
        -- intros n a Hcall. apply elem_of_cons in Hcall as [Heq|Hcall].
           ++ by injection Heq as -> ->.
           ++ by apply (Hreg n a).
        -- done.
        -- intros Hsome. specialize (Hle Hsome). lia.
        -- lia.
      * rewrite (execute_tool_disconnected _ _ _ _ Hin Hs).
        unfold bind at 1, lift. simpl.
        unfold bind at 1, create_message, external.
        match goal with
        | |- context [messages_create (client this) tr ?req] =>
            destruct (messages_create (client this) tr req) as [follow_up|e];
            set (follow_up_req := req)
        end.
        2:{ exists [ModelRequest follow_up_req]. simpl. split_and!.
            - done.
            - intros req Hreq. apply list_elem_of_singleton in Hreq as ->.
              eexists (tool_id, tool_name, tool_input), _.
              split; [apply list_elem_of_here | done].
            - apply prefix_nil.
            - intros n a Hcall. by apply elem_of_nil in Hcall.
            - done.
            - intros [? ?]; done.
            - lia. }
        match goal with
        | |- context [handle_blocks this response blocks ?acc' ?tr'] =>
            destruct (IH acc' tr')
              as (evs & Htr & Hreqs & Hprefix & Hreg & Hnone & Hle & Hge)
        end.
        exists (ModelRequest follow_up_req :: evs).
        rewrite Htr, <- !app_assoc. simpl. split_and!.
        -- done.
        -- intros req Hreq. apply elem_of_cons in Hreq as [->|Hreq].
           ++ eexists (tool_id, tool_name, tool_input), _.
              split; [apply list_elem_of_here | done].
           ++ destruct (Hreqs req Hreq) as (u & p & Hu & ->).
              exists u, p. split; [by apply list_elem_of_further | done].
        -- rewrite (Hnone eq_refl). apply prefix_nil.
        -- done.
        -- done.
        -- intros [? ?]; done.
        -- rewrite (Hnone eq_refl). simpl. lia.
    + apply IH.
Qed.

End OrchestratorProperties.
Lemma snd_bind_ret {A B} (m : M A) (f : A -> B) (tr : list Event) :
  snd (bind m (fun a => ret (f a)) tr) = snd (m tr).
Proof. unfold bind, ret. by destruct (m tr) as [[a|e] tr']. Qed.

Lemma snd_try_except_ret {A} (body : M A) (f : Exn -> A) (tr : list Event) :
  snd (try_except body (fun e => ret (f e)) tr) = snd (body tr).
Proof. unfold try_except, ret. by destruct (body tr) as [[a|e] tr']. Qed.

Section TurnProperties.

Context {Content : Type} `{!Runtime Content}.

Implicit Types (this : ClaudeMCPIntegration Content) (tr : list Event).

(** What any turn with a bridge does to the trace. *)
Lemma process_request_run this c user_message tr :
  mcp_client this = Some c ->
  exists evs,
    snd (process_request this user_message tr) =
      tr ++ ModelRequest
              (turn_request (_format_tools_for_claude (get_available_tools c))
                 user_message) :: evs
    /\ (forall req, req ∈ model_requests evs ->
        exists response tool_id payload,
          req = follow_up_request response tool_id payload)
    /\ (forall n a, (n, a) ∈ remote_calls evs -> n ∈ registry_keys c).
Proof.
  intros Hc. unfold process_request. rewrite snd_try_except_ret.
  unfold process_request_body. rewrite Hc.
  unfold bind at 1, ret at 1. unfold bind at 1, create_message, external.
  set (first := turn_request _ _).
  destruct (messages_create (client this) tr first) as [response|e].
  - rewrite snd_bind_ret. unfold _handle_claude_response.
    rewrite snd_bind_ret.
    destruct (handle_blocks_run this c response Hc
                (Response.content response) [] (tr ++ [ModelRequest first]))
      as (evs & Htr & Hreqs & _ & Hreg & _).
    exists evs. rewrite Htr, <- app_assoc. split; [done|]. split; [|done].
    intros req Hreq. destruct (Hreqs req Hreq) as (u & payload & _ & ->).
    eauto.
  - exists []. simpl. split; [done|]. split.
    + intros req Hin. by apply elem_of_nil in Hin.
    + intros n a Hin. by apply elem_of_nil in Hin.
Qed.


(** X8.  Whether it completes or raises, [_handle_claude_response] with a
    bridge invokes the requested tools strictly in the order of the
    response and stops at the first exception: the remote calls it made are
    a prefix of the response's tool uses and every one of them names a
    registered tool.  There is at most one more remote call than follow-up
    requests, and with a session never fewer. *)
Theorem any_run_invokes_a_prefix this c response tr :
  mcp_client this = Some c ->
  exists evs,
    snd (_handle_claude_response this response tr) = tr ++ evs
    /\ remote_calls evs `prefix_of`
         ((fun u : string * string * gmap string Json => (u.1.2, u.2))
            <$> tool_uses (Response.content response))
    /\ (forall n a, (n, a) ∈ remote_calls evs -> n ∈ registry_keys c)
    /\ (is_Some (session c) ->
        length (model_requests evs) <= length (remote_calls evs))
    /\ length (remote_calls evs) <= S (length (model_requests evs)).
Proof.
  intros Hc. unfold _handle_claude_response. rewrite snd_bind_ret.
  destruct (handle_blocks_run this c response Hc
              (Response.content response) [] tr)
    as (evs & Htr & _ & Hprefix & Hreg & _ & Hle & Hge).
  by exists evs.
Qed.

(** X9.  Every turn with a bridge begins with exactly one request to the
    model that carries the user's message verbatim as its only message,
    the system prompt, and one tool specification per registered tool,
    named by the registry keys in order.  During the whole turn the remote
    service is only ever called for registered tools. *)
Theorem turn_starts_with_user_request this c user_message tr :
  mcp_client this = Some c ->
  exists first evs,
    snd (process_request this user_message tr) = tr ++ ModelRequest first :: evs
    /\ Request.messages first = [mkMessage "user" (ContentStr user_message)]
    /\ Request.system first = Some system_message
    /\ (exists specs,
         Request.tools first = Some specs
         /\ ClaudeTool.name <$> specs = registry_keys c)
    /\ (forall n a, (n, a) ∈ remote_calls evs -> n ∈ registry_keys c).
Proof.
  intros Hc.
  destruct (process_request_run this c user_message tr Hc)
    as (evs & Htr & _ & Hreg).
  eexists _, evs. split; [exact Htr|]. simpl.
  split; [done|]. split; [done|]. split; [|done].
  eexists. split; [done|].
  rewrite format_tools_fmap, get_available_tools_fmap.
  unfold registry_keys. rewrite <- !list_fmap_compose.
  by apply list_fmap_ext.
Qed.

(** X10.  Every request of a turn after the first one is a follow-up
    without system prompt and without tool specifications, made of exactly
    three messages: the fixed text ["Previous request"] where the user's
    message would be, an assistant message echoing the segments of a
    response, and a user message holding a single tool result. *)
Theorem follow_ups_drop_user_message this c user_message tr :
  mcp_client this = Some c ->
  exists first evs,
    snd (process_request this user_message tr) = tr ++ ModelRequest first :: evs
    /\ forall req, req ∈ model_requests evs ->
         Request.system req = None
         /\ Request.tools req = None
         /\ exists echoed tool_id payload,
              Request.messages req =
                [mkMessage "user" (ContentStr "Previous request");
                 mkMessage "assistant" (ContentBlocks echoed);
                 mkMessage "user"
                   (ContentToolResults [mkToolResultBlock tool_id payload])].
Proof.
  intros Hc.
  destruct (process_request_run this c user_message tr Hc)
    as (evs & Htr & Hreqs & _).
  eexists _, evs. split; [exact Htr|].
  intros req Hreq. destruct (Hreqs req Hreq) as (response & i & p & ->).
  simpl. split; [done|]. split; [done|]. eauto.
Qed.


(** The segment loop over two lists of segments joined together. *)
Lemma handle_blocks_seq this response pre post acc tr :
  handle_blocks this response (pre ++ post) acc tr =
  bind (handle_blocks this response pre acc)
    (fun rs => handle_blocks this response post rs) tr.
Proof.
  revert acc tr. induction pre as [|b pre IH]; intros acc tr; [reflexivity|].
  destruct b as [text|tool_id tool_name tool_input|ty]; simpl;
    [apply IH | | apply IH].
  unfold bind, lift, create_message, external.
  destruct (mcp_execute_tool this tool_name tool_input tr) as [[r|e] tr1];
    [|reflexivity].
  destruct (json_dumps r) as [payload|e]; [|reflexivity].
  destruct (messages_create (client this) tr1
              (follow_up_request response tool_id payload)) as [fu|e];
    [|reflexivity].
  apply IH.
Qed.

(** X12.  The segment loop is sequential: running it over two lists of
    segments joined together is running it over the first list and then,
    if that did not raise, over the second list with the results gathered
    so far. *)
Theorem handle_blocks_app this response pre post acc tr :
  handle_blocks this response (pre ++ post) acc tr =
  bind (handle_blocks this response pre acc)
    (fun rs => handle_blocks this response post rs) tr.
Proof.
  apply handle_blocks_seq.
Qed.

(** X13.  Segments that are neither text nor tool use are skipped without
    a trace: removing them from the list of segments changes neither the
    results, nor the exception, nor the external calls of the loop. *)
Theorem other_segments_are_skipped this response blocks acc tr :
  handle_blocks this response
    (List.filter (fun b => negb (is_other_block b)) blocks) acc tr =
  handle_blocks this response blocks acc tr.
Proof.
  revert acc tr. induction blocks as [|b blocks IH]; intros acc tr; [reflexivity|].
  destruct b as [text|tool_id tool_name tool_input|ty]; simpl;
    [apply IH | | apply IH].
  unfold bind, lift, create_message, external.
  destruct (mcp_execute_tool this tool_name tool_input tr) as [[r|e] tr1];
    [|reflexivity].
  destruct (json_dumps r) as [payload|e]; [|reflexivity].
  destruct (messages_create (client this) tr1
              (follow_up_request response tool_id payload)) as [fu|e];
    [|reflexivity].
  apply IH.
Qed.

(** X14.  Only a command of exactly four characters can end the session:
    [process_command] neither trims nor otherwise normalises its input
    beyond lower-casing, so every command of another length is passed to
    [process_request] as it is. *)
Theorem other_lengths_are_forwarded (assistant : CalendarAssistant Content)
    command tr :
  String.length command <> 4 ->
  exists outcome tr',
    process_request (integration assistant) command tr = (Ok outcome, tr')
    /\ process_command assistant command tr = (Ok (TurnResult outcome), tr').
Proof.
  intros Hlen.
  destruct (process_request_total (integration assistant) command tr)
    as (outcome & tr' & Hturn).
  exists outcome, tr'. split; [done|].
  unfold process_command.
  destruct (is_sentinel command) eqn:Hs.
  - apply is_sentinel_spec in Hs.
    rewrite <- (length_lower command) in Hlen.
    destruct Hs as [Hs|Hs]; rewrite Hs in Hlen; done.
  - by rewrite (bind_Ok _ _ _ _ _ Hturn).
Qed.

End TurnProperties.
(* ===================================================================== *)
(** ** Properties of tool discovery *)
(* ===================================================================== *)

Lemma dict_set_fresh {V} (k : string) (v : V) (d : list (string * V)) :
  k ∉ d.*1 -> dict_set k v d = d ++ [(k, v)].
Proof.
  induction d as [|[k' v'] d IH]; intros Hfresh; simpl; [done|].
  simpl in Hfresh. apply not_elem_of_cons in Hfresh as [Hne Hfresh].
  destruct (String.eqb_spec k' k) as [->|_]; [done|].
  by rewrite IH.
Qed.

Lemma dict_set_keys {V} (k : string) (v : V) (d : list (string * V)) :
  (dict_set k v d).*1 = if bool_decide (k ∈ d.*1) then d.*1 else d.*1 ++ [k].
Proof.
  induction d as [|[k' v'] d IH]; [done|].
  cbn [dict_set]. rewrite fmap_cons. cbn [fst].
  destruct (String.eqb_spec k' k) as [->|Hne].
  - rewrite fmap_cons. cbn [fst].
    by rewrite bool_decide_eq_true_2 by apply list_elem_of_here.
  - rewrite fmap_cons, IH. cbn [fst].
    destruct (decide (k ∈ d.*1)) as [Hin|Hnot].
    + rewrite (bool_decide_eq_true_2 _ Hin).
      by rewrite bool_decide_eq_true_2 by (by apply list_elem_of_further).
    + rewrite (bool_decide_eq_false_2 _ Hnot).
      rewrite bool_decide_eq_false_2; [done|].
      intros Hin. apply elem_of_cons in Hin as [->|Hin]; done.
Qed.

Lemma dict_set_entries {V} (k : string) (v : V) (d : list (string * V)) k0 v0 :
  (k0, v0) ∈ dict_set k v d -> (k0 = k /\ v0 = v) \/ (k0, v0) ∈ d.
Proof.
  induction d as [|[k' v'] d IH]; simpl.
  - intros Hin. apply list_elem_of_singleton in Hin. injection Hin as -> ->. by left.
  - destruct (String.eqb_spec k' k) as [->|Hne]; intros Hin.
    + apply elem_of_cons in Hin as [Heq|Hin].
      * injection Heq as -> ->. by left.
      * right. by apply list_elem_of_further.
    + apply elem_of_cons in Hin as [Heq|Hin].
      * right. rewrite Heq. apply list_elem_of_here.
      * destruct (IH Hin) as [?|?]; [by left|].
        right. by apply list_elem_of_further.
Qed.

Lemma dict_get_set {V} (k k' : string) (v : V) (d : list (string * V)) :
  dict_get k' (dict_set k v d) = if String.eqb k k' then Some v else dict_get k' d.
Proof.
  induction d as [|[k0 v0] d IH]; simpl; [done|].
  destruct (String.eqb_spec k0 k) as [->|Hne]; simpl.
  - by destruct (String.eqb_spec k k').
  - rewrite IH. destruct (String.eqb_spec k0 k') as [->|Hne'].
    + by rewrite (proj2 (String.eqb_neq k k')) by done.
    + done.
Qed.

Section Registry.

(** The registry under construction: [d] after the tools [announced]. *)
Local Abbreviation register announced d :=
  (fold_left (fun d tool => dict_set (MCPTool.name tool) tool d) announced d).

Lemma register_keys_NoDup announced : forall d,
  NoDup d.*1 -> NoDup (register announced d).*1.
Proof.
  induction announced as [|tool announced IH]; intros d Hd; simpl; [done|].
  apply IH. rewrite dict_set_keys. case_bool_decide as Hin; [done|].
  apply NoDup_app. split; [done|]. split.
  - intros k Hk Hk'. apply list_elem_of_singleton in Hk' as ->. done.
  - apply NoDup_singleton.
Qed.

Lemma register_keys announced : forall d k,
  k ∈ (register announced d).*1 <->
  k ∈ d.*1 \/ k ∈ MCPTool.name <$> announced.
Proof.
  induction announced as [|tool announced IH]; intros d k; simpl.
  - split; [by left|]. intros [?|Hin]; [done|]. by apply elem_of_nil in Hin.
  - rewrite IH, dict_set_keys, elem_of_cons.
    case_bool_decide as Hin.
    + split; [tauto|]. intros [?|[->|?]]; tauto.
    + rewrite elem_of_app, list_elem_of_singleton. tauto.
Qed.

Lemma register_entries announced : forall d k t,
  (k, t) ∈ register announced d ->
  (MCPTool.name t = k /\ t ∈ announced) \/ (k, t) ∈ d.
Proof.
  induction announced as [|tool announced IH]; intros d k t Hin; simpl in *.
  - by right.
  - apply IH in Hin as [[Hname Hin]|Hin].
    + left. split; [done|]. by apply list_elem_of_further.
    + apply dict_set_entries in Hin as [[-> ->]|Hin]; [|by right].
      left. split; [done|]. apply list_elem_of_here.
Qed.

Lemma register_get_other announced k : forall d,
  (forall t, t ∈ announced -> MCPTool.name t <> k) ->
  dict_get k (register announced d) = dict_get k d.
Proof.
  induction announced as [|tool announced IH]; intros d Hother; simpl; [done|].
  rewrite IH by (intros t Ht; apply Hother; by apply list_elem_of_further).
  rewrite dict_get_set.
  rewrite (proj2 (String.eqb_neq _ _)); [done|].
  apply Hother, list_elem_of_here.
Qed.

Lemma register_distinct announced : forall d,
  NoDup (MCPTool.name <$> announced) ->
  (forall t, t ∈ announced -> MCPTool.name t ∉ d.*1) ->
  register announced d = d ++ ((fun t => (MCPTool.name t, t)) <$> announced).
Proof.
  induction announced as [|tool announced IH]; intros d Hnodup Hfresh; simpl.
  - by rewrite app_nil_r.
  - simpl in Hnodup. apply NoDup_cons in Hnodup as [Hhead Hnodup].
    rewrite dict_set_fresh by apply Hfresh, list_elem_of_here.
    rewrite IH; [by rewrite <- app_assoc | done |].
    intros t Ht. rewrite fmap_app. simpl. rewrite elem_of_app.
    intros [Hin|Hin].
    + by apply (Hfresh t (list_elem_of_further _ _ _ Ht)).
    + apply list_elem_of_singleton in Hin. apply Hhead.
      rewrite <- Hin. apply list_elem_of_fmap. by exists t.
Qed.

(** X15.  The registry built by tool discovery has one entry per distinct
    announced name: its keys have no duplicates, a name is a key exactly
    when some announced tool has it, and every entry stores under its key
    an announced tool of that very name. *)
Theorem discovery_builds_registry (announced : list MCPTool.t) :
  NoDup (tools_by_name announced).*1
  /\ (forall k, k ∈ (tools_by_name announced).*1 <->
                k ∈ MCPTool.name <$> announced)
  /\ (forall k t, (k, t) ∈ tools_by_name announced ->
                  MCPTool.name t = k /\ t ∈ announced).
Proof.
  split; [|split].
  - apply (register_keys_NoDup announced []). constructor.
  - intros k. rewrite (register_keys announced [] k). simpl.
    split; [|tauto]. intros [Hin|?]; [by apply elem_of_nil in Hin | done].
  - intros k t Hin.
    apply (register_entries announced []) in Hin as [?|Hin]; [done|].
    by apply elem_of_nil in Hin.
Qed.

(** X16.  When the server announces several tools under one name, the last
    of them is the one the registry holds for that name. *)
Theorem discovery_last_announcement_wins (earlier later : list MCPTool.t)
    (tool : MCPTool.t) :
  (forall t, t ∈ later -> MCPTool.name t <> MCPTool.name tool) ->
  dict_get (MCPTool.name tool) (tools_by_name (earlier ++ tool :: later)) =
    Some tool.
Proof.
  intros Hlater. unfold tools_by_name. rewrite fold_left_app. simpl.
  rewrite (register_get_other later (MCPTool.name tool) _ Hlater).
  rewrite dict_get_set. by rewrite String.eqb_refl.
Qed.

(** X17.  When the announced names are distinct, discovery keeps the
    server's order: the registry lists the announced tools one by one,
    each under its own name. *)
Theorem discovery_keeps_announced_order (announced : list MCPTool.t) :
  NoDup (MCPTool.name <$> announced) ->
  tools_by_name announced = (fun t => (MCPTool.name t, t)) <$> announced.
Proof.
  intros Hnodup.
  apply (register_distinct announced [] Hnodup).
  intros t _ Hin. by apply elem_of_nil in Hin.
Qed.

End Registry.
(* ===================================================================== *)
(** ** Properties of the connection lifecycle *)
(* ===================================================================== *)

Section LifecycleProperties.

Context {Content : Type} `{!Runtime Content}.

Implicit Types (server : Server Content) (o : ClientObject Content)
  (calls : list ServerCall).

(** [__aenter__], evaluated answer by answer. *)
Lemma aenter_eval server o calls :
  __aenter__ server (o, calls) =
  let cmd := server_command (attrs o) in
  let args := server_args (attrs o) in
  let o1 := set_stdio_client o in
  let o2 := set_session_context o1 in
  match stdio_enter server cmd args with
  | Raised e => (Raised e, (o1, calls ++ [StdioEnter cmd args]))
  | Ok _ =>
      match session_enter server with
      | Raised e => (Raised e, (o2, calls ++ [StdioEnter cmd args; SessionEnter]))
      | Ok s =>
          match session_initialize server with
          | Raised e =>
              (Raised e,
               (set_session s o2,
                calls ++ [StdioEnter cmd args; SessionEnter; SessionInitialize]))
          | Ok _ =>
              match list_tools server with
              | Raised e =>
                  (Raised e,
                   (set_session s o2,
                    calls ++ [StdioEnter cmd args; SessionEnter;
                              SessionInitialize; ListTools]))
              | Ok announced =>
                  (Ok tt,
                   (set_tools (tools_by_name announced) (set_session s o2),
                    calls ++ [StdioEnter cmd args; SessionEnter;
                              SessionInitialize; ListTools]))
              end
          end
      end
  end.
Proof.
  unfold __aenter__, se_bind, update, se_modify, server_call, _discover_tools.
  simpl.
  destruct (stdio_enter server _ _) as [?|e]; [|done].
  destruct (session_enter server) as [s|e]; simpl;
    [|by rewrite <- app_assoc].
  destruct (session_initialize server) as [?|e]; simpl;
    [|by rewrite <- !app_assoc].
  unfold se_bind, server_call. simpl.
  destruct (list_tools server) as [announced|e]; simpl;
    by rewrite <- !app_assoc.
Qed.

(** [__aexit__], evaluated answer by answer. *)
Lemma aexit_eval server o calls :
  __aexit__ server (o, calls) =
  match has_session_context o, has_stdio_client o with
  | true, true =>
      match session_exit server with
      | Ok _ => (stdio_exit server, (o, calls ++ [SessionExit; StdioExit]))
      | Raised e => (Raised e, (o, calls ++ [SessionExit]))
      end
  | true, false =>
      match session_exit server with
      | Ok _ => (Ok tt, (o, calls ++ [SessionExit]))
      | Raised e => (Raised e, (o, calls ++ [SessionExit]))
      end
  | false, true => (stdio_exit server, (o, calls ++ [StdioExit]))
  | false, false => (Ok tt, (o, calls))
  end.
Proof.
  unfold __aexit__, se_bind, server_call, se_ret. simpl.
  destruct (has_session_context o), (has_stdio_client o); simpl; try done;
    destruct (session_exit server) as [[]|e]; simpl; try done.
  by rewrite <- app_assoc.
Qed.

(** X18.  When the server answers all four calls of the handshake,
    [__aenter__] succeeds after making exactly these calls in order:
    entering the stdio context with the object's command and arguments,
    entering the session, initialising it, listing the tools.  Afterwards
    the object holds the session, its registry is the one built from the
    announced tools, and every announced tool is registered; with distinct
    names [get_available_tools] describes the announced tools in the
    server's order. *)
Theorem connect_registers_announced_tools server o calls s announced :
  stdio_enter server (server_command (attrs o)) (server_args (attrs o)) = Ok tt ->
  session_enter server = Ok s ->
  session_initialize server = Ok tt ->
  list_tools server = Ok announced ->
  exists o',
    __aenter__ server (o, calls) =
      (Ok tt,
       (o', calls ++ [StdioEnter (server_command (attrs o)) (server_args (attrs o));
                      SessionEnter; SessionInitialize; ListTools]))
    /\ session (attrs o') = Some s
    /\ tools (attrs o') = tools_by_name announced
    /\ (forall t, t ∈ announced -> MCPTool.name t ∈ registry_keys (attrs o'))
    /\ (NoDup (MCPTool.name <$> announced) ->
        get_available_tools (attrs o') =
          (fun t => ToolDescriptor.mk (MCPTool.name t) (MCPTool.description t)
                      (MCPTool.inputSchema t)) <$> announced).
Proof.
  intros Hstdio Hsession Hinit Htools.
  rewrite aenter_eval. simpl. rewrite Hstdio, Hsession, Hinit, Htools.
  eexists. split; [reflexivity|]. simpl. split; [done|]. split; [done|]. split.
  - intros t Ht. unfold registry_keys. simpl.
    apply (register_keys announced [] (MCPTool.name t)). right.
    apply list_elem_of_fmap. by exists t.
  - intros Hnodup. rewrite get_available_tools_fmap. simpl.
    unfold tools_by_name.
    rewrite (register_distinct announced [] Hnodup)
      by (intros t _ Hin; by apply elem_of_nil in Hin).
    simpl. rewrite <- list_fmap_compose. by apply list_fmap_ext.
Qed.

(** X19.  When [__aenter__] raises [e], the calls made are the handshake
    up to and including the call that failed: every call before the last
    one was answered, the last call made is the one that raised, and [e]
    is the exception that call raised, re-raised unchanged.  The registry
    is what it was before, and the object has acquired its [stdio_client]
    attribute, whichever call failed. *)
Theorem connect_failure_is_reraised server o calls e o' calls' :
  __aenter__ server (o, calls) = (Raised e, (o', calls')) ->
  ((stdio_enter server (server_command (attrs o)) (server_args (attrs o)) =
      Raised e
    /\ calls' =
         calls ++ [StdioEnter (server_command (attrs o)) (server_args (attrs o))])
   \/ ((exists u, stdio_enter server (server_command (attrs o))
                    (server_args (attrs o)) = Ok u)
       /\ session_enter server = Raised e
       /\ calls' =
            calls ++ [StdioEnter (server_command (attrs o)) (server_args (attrs o));
                      SessionEnter])
   \/ ((exists u, stdio_enter server (server_command (attrs o))
                    (server_args (attrs o)) = Ok u)
       /\ (exists s, session_enter server = Ok s)
       /\ session_initialize server = Raised e
       /\ calls' =
            calls ++ [StdioEnter (server_command (attrs o)) (server_args (attrs o));
                      SessionEnter; SessionInitialize])
   \/ ((exists u, stdio_enter server (server_command (attrs o))
                    (server_args (attrs o)) = Ok u)
       /\ (exists s, session_enter server = Ok s)
       /\ (exists u, session_initialize server = Ok u)
       /\ list_tools server = Raised e
       /\ calls' =
            calls ++ [StdioEnter (server_command (attrs o)) (server_args (attrs o));
                      SessionEnter; SessionInitialize; ListTools]))
  /\ tools (attrs o') = tools (attrs o)
  /\ has_stdio_client o' = true.
Proof.
  rewrite aenter_eval. simpl.
  destruct (stdio_enter server _ _) as [u1|e1] eqn:Hstdio.
  2:{ intros H. injection H as <- <- <-. split_and!; [|done|done].
      left. by split. }
  destruct (session_enter server) as [s|e2] eqn:Hsession.
  2:{ intros H. injection H as <- <- <-. split_and!; [|done|done].
      right; left. split_and!; [by eexists | done | done]. }
  destruct (session_initialize server) as [u3|e3] eqn:Hinit.
  2:{ intros H. injection H as <- <- <-. split_and!; [|done|done].
      right; right; left.
      split_and!; [by eexists | by eexists | done | done]. }
  destruct (list_tools server) as [announced|e4] eqn:Htools; [done|].
  intros H. injection H as <- <- <-. split_and!; [|done|done].
  right; right; right.
  split_and!; [by eexists | by eexists | by eexists | done | done].
Qed.

(** X20.  Whatever the outcome of connecting a newly constructed client,
    its registry is non-empty only if it holds a session.  Executing a
    registered tool on such a client therefore always reaches the remote
    service, with exactly one call. *)
Theorem registered_tools_reach_the_service server command args
    calls r o' calls' tool_name arguments tr :
  __aenter__ server (new_client command args, calls) = (r, (o', calls')) ->
  tool_name ∈ registry_keys (attrs o') ->
  is_Some (session (attrs o'))
  /\ snd (execute_tool (attrs o') tool_name arguments tr) =
       tr ++ [RemoteCall tool_name arguments].
Proof.
  intros Henter Hin.
  assert (is_Some (session (attrs o'))) as [s Hs].
  { rewrite aenter_eval in Henter. simpl in Henter.
    destruct (stdio_enter server _ _) as [?|e1];
      [| injection Henter as <- <- <-; by apply elem_of_nil in Hin].
    destruct (session_enter server) as [s|e2];
      [| injection Henter as <- <- <-; by apply elem_of_nil in Hin].
    destruct (session_initialize server) as [?|e3];
      [| injection Henter as <- <- <-; by eexists].
    destruct (list_tools server) as [announced|e4];
      injection Henter as <- <- <-; by eexists. }
  split; [by eexists|].
  by rewrite (execute_tool_connected _ s _ _ _ Hin Hs).
Qed.

(** X21.  After a successful [__aenter__], [__aexit__] leaves the session
    context first and the stdio context second.  When leaving the session
    context raises, that exception propagates and the stdio context is
    never left; otherwise the result is that of leaving the stdio
    context. *)
Theorem disconnect_leaves_session_first server o calls o' calls' :
  __aenter__ server (o, calls) = (Ok tt, (o', calls')) ->
  (session_exit server = Ok tt ->
   __aexit__ server (o', calls') =
     (stdio_exit server, (o', calls' ++ [SessionExit; StdioExit])))
  /\ (forall e, session_exit server = Raised e ->
      __aexit__ server (o', calls') = (Raised e, (o', calls' ++ [SessionExit]))).
Proof.
  intros Henter.
  assert (has_session_context o' = true /\ has_stdio_client o' = true)
    as [Hsc Hstdio].
  { rewrite aenter_eval in Henter. simpl in Henter.
    destruct (stdio_enter server _ _) as [?|e1]; [|done].
    destruct (session_enter server) as [s|e2]; [|done].
    destruct (session_initialize server) as [?|e3]; [|done].
    destruct (list_tools server) as [announced|e4]; [|done].
    by injection Henter as <- <-. }
  rewrite aexit_eval, Hsc, Hstdio.
  split; [by intros -> | by intros e ->].
Qed.

(** X22.  After a failed [__aenter__] on a newly constructed client,
    [__aexit__] still tries to leave every context that was created, even
    one whose entering failed: the stdio context always (unless leaving the
    session context raises first), and before it the session context
    exactly when entering the stdio context had succeeded. *)
Theorem disconnect_after_failed_connect server command args calls e o' calls' :
  __aenter__ server (new_client command args, calls) = (Raised e, (o', calls')) ->
  (has_session_context o' = true <->
   exists u,
     stdio_enter server (server_command (attrs (@new_client Content command args)))
       (server_args (attrs (@new_client Content command args))) = Ok u)
  /\ snd (snd (__aexit__ server (o', calls'))) =
       calls' ++ (if has_session_context o'
                  then match session_exit server with
                       | Ok _ => [SessionExit; StdioExit]
                       | Raised _ => [SessionExit]
                       end
                  else [StdioExit]).
Proof.
  intros Henter.
  assert (has_stdio_client o' = true
          /\ (has_session_context o' = true <->
              exists u,
                stdio_enter server
                  (server_command (attrs (@new_client Content command args)))
                  (server_args (attrs (@new_client Content command args))) = Ok u))
    as [Hstdio Hsc].
  { rewrite aenter_eval in Henter. simpl in Henter. simpl.
    destruct (stdio_enter server _ _) as [u|e1].
    2:{ injection Henter as <- <- <-. simpl. split; [done|].
        split; [done | by intros [u Hu]]. }
    assert (exists u0 : unit, Ok u = Ok u0) as Hex by eauto.
    destruct (session_enter server) as [s|e2];
      [| injection Henter as <- <- <-; simpl; by split].
    destruct (session_initialize server) as [?|e3];
      [| injection Henter as <- <- <-; simpl; by split].
    destruct (list_tools server) as [announced|e4]; [done|].
    injection Henter as <- <- <-. simpl. by split. }
  split; [exact Hsc|].
  rewrite aexit_eval, Hstdio.
  destruct (has_session_context o'); [|done].
  by destruct (session_exit server).
Qed.

End LifecycleProperties.
(* ===================================================================== *)
(** ** Properties of the interactive loop *)
(* ===================================================================== *)

Section InteractiveProperties.

Context {Content : Type} `{!Runtime Content}.

Implicit Types (server : Server Content) (w : World Content).

(** The command loop, evaluated: it runs one turn per line before the
    first sentinel, whatever the turns return, and stops at the sentinel or
    at the end of the input. *)
Lemma command_loop_eval backend inputs : forall w,
  command_loop backend inputs w =
    (if existsb is_sentinel inputs then Ok tt
     else Raised (OtherError "EOFError" "EOF when reading a line"),
     mkWorld (mcp_object w) (server_calls w)
       (run_turns (integration_of backend w)
          (commands_before_sentinel inputs) (turns w))
       (lines_after_sentinel inputs)).
Proof.
  induction inputs as [|line inputs IH]; intros w; simpl; [done|].
  destruct (is_sentinel line) eqn:Hs; simpl; [done|].
  unfold se_bind, run_command, process_command. rewrite Hs. simpl.
  change (integration_of backend
            (mkWorld (mcp_object w) (server_calls w) (turns w) inputs))
    with (integration_of backend w).
  destruct (process_request_total (integration_of backend w) line (turns w))
    as (outcome & tr' & Hturn).
  rewrite (bind_Ok _ _ _ _ _ Hturn). unfold ret at 1.
  rewrite IH. simpl. rewrite Hturn. reflexivity.
Qed.

(** X23.  When [start] raises, [interactive_mode] raises the same exception
    at once: no line is read, no turn is run, and [stop] is not called, so
    whatever the failed connection attempt had opened is not closed. *)
Theorem failed_start_closes_nothing server backend w e w1 :
  start server w = (Raised e, w1) ->
  interactive_mode server backend w = (Raised e, w1)
  /\ turns w1 = turns w
  /\ stdin w1 = stdin w
  /\ exists made,
       server_calls w1 = server_calls w ++ made
       /\ made <> []
       /\ (SessionExit ∉ made)
       /\ (StdioExit ∉ made).
Proof.
  intros Hstart. split.
  { unfold interactive_mode, se_bind. by rewrite Hstart. }
  unfold start, initialize_mcp in Hstart. rewrite aenter_eval in Hstart.
  simpl in Hstart.
  assert (forall made : list ServerCall,
            made `prefix_of`
              [StdioEnter "npx" ["-y"; "@cocal/google-calendar-mcp"];
               SessionEnter; SessionInitialize; ListTools] ->
            (SessionExit ∉ made) /\ (StdioExit ∉ made)) as Hquiet.
  { intros made [rest Hrest]. split; intros Hin.
    - assert (SessionExit ∈ made ++ rest) as Hin'
        by (apply elem_of_app; by left).
      rewrite <- Hrest in Hin'.
      repeat (apply elem_of_cons in Hin' as [?|Hin']; [done|]).
      by apply elem_of_nil in Hin'.
    - assert (StdioExit ∈ made ++ rest) as Hin'
        by (apply elem_of_app; by left).
      rewrite <- Hrest in Hin'.
      repeat (apply elem_of_cons in Hin' as [?|Hin']; [done|]).
      by apply elem_of_nil in Hin'. }
  destruct (stdio_enter server _ _) as [?|e1].
  2:{ injection Hstart as <- <-. simpl. split; [done|]. split; [done|].
      eexists. split; [done|]. split; [done|].
      apply Hquiet. apply prefix_cons, prefix_nil. }
  destruct (session_enter server) as [s|e2].
  2:{ injection Hstart as <- <-. simpl. split; [done|]. split; [done|].
      eexists. split; [done|]. split; [done|].
      apply Hquiet. do 2 apply prefix_cons. apply prefix_nil. }
  destruct (session_initialize server) as [?|e3].
  2:{ injection Hstart as <- <-. simpl. split; [done|]. split; [done|].
      eexists. split; [done|]. split; [done|].
      apply Hquiet. do 3 apply prefix_cons. apply prefix_nil. }
  destruct (list_tools server) as [announced|e4]; [done|].
  injection Hstart as <- <-. simpl. split; [done|]. split; [done|].
  eexists. split; [done|]. split; [done|]. by apply Hquiet.
Qed.

(** X24.  After a successful [start], [interactive_mode] runs one turn for
    each line before the first sentinel, in order and whatever the turns
    return, leaves the lines after the sentinel unread, and then calls
    [stop] exactly once, whether the loop ended at a sentinel or at the end
    of the input.  When disconnecting succeeds the result is normal
    termination after a sentinel and [EOFError] otherwise; when leaving the
    session context raises, that exception is the result. *)
Theorem interactive_session server backend w w1 :
  start server w = (Ok tt, w1) ->
  exists r w2 closing,
    interactive_mode server backend w = (r, w2)
    /\ turns w2 =
         run_turns (integration_of backend w1)
           (commands_before_sentinel (stdin w)) (turns w)
    /\ stdin w2 = lines_after_sentinel (stdin w)
    /\ server_calls w2 = server_calls w1 ++ SessionExit :: closing
    /\ match session_exit server with
       | Ok _ => closing = [StdioExit]
       | Raised e => closing = [] /\ r = Raised e
       end
    /\ (session_exit server = Ok tt -> stdio_exit server = Ok tt ->
        r = if existsb is_sentinel (stdin w) then Ok tt
            else Raised (OtherError "EOFError" "EOF when reading a line")).
Proof.
  intros Hstart.
  unfold interactive_mode, se_bind. rewrite Hstart.
  unfold se_finally. rewrite command_loop_eval.
  unfold start, initialize_mcp in Hstart. rewrite aenter_eval in Hstart.
  simpl in Hstart.
  destruct (stdio_enter server _ _) as [?|e1]; [|done].
  destruct (session_enter server) as [s|e2]; [|done].
  destruct (session_initialize server) as [?|e3]; [|done].
  destruct (list_tools server) as [announced|e4]; [|done].
  injection Hstart as <-. simpl.
  unfold stop, cleanup_mcp. simpl. rewrite aexit_eval. simpl.
  destruct (session_exit server) as [[]|e] eqn:Hexit.
  - destruct (stdio_exit server) as [[]|e'] eqn:Hstdio.
    + eexists _, _, [StdioExit]. split; [reflexivity|]. simpl.
      split_and!; first [done | by rewrite <- app_assoc].
    + eexists _, _, [StdioExit]. split; [reflexivity|]. simpl.
      split_and!; first [done | by rewrite <- app_assoc].
  - eexists _, _, []. split; [reflexivity|]. simpl.
    split_and!; first [done | by rewrite <- app_assoc].
Qed.

End InteractiveProperties.
(* ===================================================================== *)
(** ** Turns as a whole *)
(* ===================================================================== *)

Section WholeTurns.

Context {Content : Type} `{!Runtime Content}.

Implicit Types (this : ClaudeMCPIntegration Content) (tr : list Event).

(** X25.  Failures of the remote service never fail a turn: when the model
    backend answers every request, every payload serialises and the
    response asks only for registered tools, the turn completes with
    [success] true and returns the response, whatever the remote calls
    answer or raise. *)
Theorem turn_survives_remote_failures this c user_message tr response :
  mcp_client this = Some c ->
  (forall content, exists text, dumps_content content = Ok text) ->
  (forall tr req, exists resp, messages_create (client this) tr req = Ok resp) ->
  messages_create (client this) tr
    (turn_request (_format_tools_for_claude (get_available_tools c))
       user_message) = Ok response ->
  (forall u, u ∈ tool_uses (Response.content response) ->
             u.1.2 ∈ registry_keys c) ->
  exists rs tr',
    process_request this user_message tr = (Ok (Completed rs response), tr')
    /\ success (Completed rs response) = true.
Proof.
  intros Hc Hdumps Hbackend Hanswer Hreg.
  destruct (handle_blocks_completes this c response Hc Hdumps Hbackend
              (Response.content response) Hreg []
              (tr ++ [ModelRequest
                        (turn_request
                           (_format_tools_for_claude (get_available_tools c))
                           user_message)]))
    as (rs & tr' & Hloop).
  exists rs, tr'. split; [|done].
  unfold process_request, try_except, process_request_body.
  rewrite Hc. unfold bind at 1, ret at 1.
  unfold bind at 1, create_message, external. rewrite Hanswer.
  unfold bind at 1, _handle_claude_response.
  by rewrite (bind_Ok _ _ _ _ _ Hloop).
Qed.

(** X26.  A turn that fails may already have acted: when the segments
    before a tool use of an unregistered tool have been processed, the turn
    returns a failure with the unknown-tool message and no results, while
    every external call made for the earlier segments, remote invocations
    included, has happened and stays in the trace. *)
Theorem failed_turn_keeps_side_effects this c user_message tr response
    pre tool_id tool_name tool_input rest rs tr' :
  mcp_client this = Some c ->
  messages_create (client this) tr
    (turn_request (_format_tools_for_claude (get_available_tools c))
       user_message) = Ok response ->
  Response.content response =
    pre ++ ToolUseBlock tool_id tool_name tool_input :: rest ->
  tool_name ∉ registry_keys c ->
  handle_blocks this response pre []
    (tr ++ [ModelRequest
              (turn_request (_format_tools_for_claude (get_available_tools c))
                 user_message)]) = (Ok rs, tr') ->
  exists outcome,
    process_request this user_message tr = (Ok outcome, tr')
    /\ outcome =
         Failed ("Failed to process request: "
                 +:+ ("Tool '" +:+ tool_name
                      +:+ "' not available. Available tools: "
                      +:+ repr_list (registry_keys c)))
    /\ results outcome = None.
Proof.
  intros Hc Hanswer Hblocks Hnot Hpre.
  eexists. split; [|split; [reflexivity | reflexivity]].
  unfold process_request, try_except, process_request_body.
  rewrite Hc. unfold bind at 1, ret at 1.
  unfold bind at 1, create_message, external. rewrite Hanswer.
  unfold bind at 1, _handle_claude_response. rewrite Hblocks.
  unfold bind at 1. rewrite handle_blocks_seq.
  rewrite (bind_Ok _ _ _ _ _ Hpre). simpl.
  unfold bind at 1, mcp_execute_tool. rewrite Hc.
  by rewrite (execute_tool_not_registered _ _ _ _ Hnot).
Qed.

(** X27.  An orchestrator that has been constructed but not initialised
    has no bridge: every turn fails with the message of the attribute error
    and calls neither the model nor the remote service. *)
Theorem turn_before_initialize_fails (backend : Anthropic) user_message tr :
  process_request (ClaudeMCPIntegration_init (Content:=Content) backend)
    user_message tr =
    (Ok (Failed ("Failed to process request: "
                 +:+ "'NoneType' object has no attribute 'get_available_tools'")),
     tr).
Proof. by apply process_request_without_bridge. Qed.

End WholeTurns.
(* ===================================================================== *)
(** ** The further scenarios, run *)
(* ===================================================================== *)

Ltac by_computation := apply (bool_decide_unpack _); vm_compute; exact I.

Lemma execute_tool_registered_reports_witness :
  exists r,
    execute_tool Scenario.bridge "list_calendar_events" ∅ [] =
      (Ok r, [] ++ [RemoteCall "list_calendar_events" ∅])
    /\ (forall payload,
         call_tool Scenario.service [] "list_calendar_events" ∅ = Ok payload ->
         r = ToolSuccess payload "list_calendar_events" /\ tool_success r = true)
    /\ (forall e,
         call_tool Scenario.service [] "list_calendar_events" ∅ = Raised e ->
         r = ToolFailure (str e) "list_calendar_events" /\ tool_success r = false).
Proof.
  apply (execute_tool_registered_reports Scenario.bridge Scenario.service
           "list_calendar_events" ∅ []); [by_computation | reflexivity].
Defined.

Lemma execute_tool_raises_iff_unregistered_witness :
  exists e, fst (execute_tool Scenario.bridge "delete_calendar" ∅ []) = Raised e.
Proof.
  apply (proj2 (proj1 (execute_tool_raises_iff_unregistered Scenario.bridge
                         "delete_calendar" ∅ []))).
  by_computation.
Defined.

Lemma offered_tools_are_executable_witness :
  "list_calendar_events" ∈ registry_keys Scenario.bridge
  /\ exists r tr',
       execute_tool Scenario.bridge "list_calendar_events" ∅ [] = (Ok r, tr').
Proof.
  apply (offered_tools_are_executable Scenario.bridge
           (ClaudeTool.mk "list_calendar_events" "List events" (JObj ∅)) ∅ []).
  apply list_elem_of_further, list_elem_of_here.
Defined.

Lemma create_event_args_values_witness :
  create_calendar_event_args "Standup" "2025-01-02T09:00:00"
    "2025-01-02T09:30:00" (Some "Daily sync")
    (Some ["ann@example.org"; "bob@example.org"]) !! "description" =
    Some (JStr "Daily sync")
  /\ create_calendar_event_args "Standup" "2025-01-02T09:00:00"
       "2025-01-02T09:30:00" (Some "Daily sync")
       (Some ["ann@example.org"; "bob@example.org"]) !! "attendees" =
       Some (JArr [JObj {[ "email" := JStr "ann@example.org" ]};
                   JObj {[ "email" := JStr "bob@example.org" ]}]).
Proof.
  split.
  - apply (proj1 (proj2 (create_event_args_values "Standup"
                           "2025-01-02T09:00:00" "2025-01-02T09:30:00"
                           (Some "Daily sync")
                           (Some ["ann@example.org"; "bob@example.org"])))
             "Daily sync" eq_refl).
    discriminate.
  - apply (proj2 (proj2 (create_event_args_values "Standup"
                           "2025-01-02T09:00:00" "2025-01-02T09:30:00"
                           (Some "Daily sync")
                           (Some ["ann@example.org"; "bob@example.org"])))
             ["ann@example.org"; "bob@example.org"] eq_refl).
    discriminate.
Defined.

Lemma list_events_args_window_witness :
  list_events_args (Some "2025-01-01T00:00:00Z") (Some "") (Some 0%Z)
    !! "maxResults" = Some (JNum 0)
  /\ list_events_args (Some "2025-01-01T00:00:00Z") (Some "") (Some 0%Z)
       !! "timeMin" = Some (JStr "2025-01-01T00:00:00Z").
Proof.
  split.
  - apply (proj1 (list_events_args_window (Some "2025-01-01T00:00:00Z")
                    (Some "") (Some 0%Z)) 0%Z eq_refl).
  - apply (proj1 (proj2 (proj2 (proj2
             (list_events_args_window (Some "2025-01-01T00:00:00Z")
                (Some "") (Some 0%Z)))))
             "2025-01-01T00:00:00Z" eq_refl).
    discriminate.
Defined.

Lemma any_run_invokes_a_prefix_witness :
  exists evs,
    snd (_handle_claude_response Scenario.flaky Scenario.booking_response []) =
      [] ++ evs
    /\ remote_calls evs `prefix_of`
         ((fun u : string * string * gmap string Json => (u.1.2, u.2))
            <$> tool_uses (Response.content Scenario.booking_response))
    /\ (forall n a, (n, a) ∈ remote_calls evs ->
                    n ∈ registry_keys Scenario.bridge)
    /\ (is_Some (session Scenario.bridge) ->
        length (model_requests evs) <= length (remote_calls evs))
    /\ length (remote_calls evs) <= S (length (model_requests evs)).
Proof.
  apply (any_run_invokes_a_prefix Scenario.flaky Scenario.bridge
           Scenario.booking_response [] eq_refl).
Defined.

Lemma turn_starts_with_user_request_witness :
  exists first evs,
    snd (process_request Scenario.listing "List my events" []) =
      [] ++ ModelRequest first :: evs
    /\ Request.messages first = [mkMessage "user" (ContentStr "List my events")]
    /\ Request.system first = Some system_message
    /\ (exists specs,
         Request.tools first = Some specs
         /\ ClaudeTool.name <$> specs = registry_keys Scenario.bridge)
    /\ (forall n a, (n, a) ∈ remote_calls evs ->
                    n ∈ registry_keys Scenario.bridge).
Proof.
  apply (turn_starts_with_user_request Scenario.listing Scenario.bridge
           "List my events" [] eq_refl).
Defined.

Lemma follow_ups_drop_user_message_witness :
  exists first evs,
    snd (process_request Scenario.listing "List my events" []) =
      [] ++ ModelRequest first :: evs
    /\ forall req, req ∈ model_requests evs ->
         Request.system req = None
         /\ Request.tools req = None
         /\ exists echoed tool_id payload,
              Request.messages req =
                [mkMessage "user" (ContentStr "Previous request");
                 mkMessage "assistant" (ContentBlocks echoed);
                 mkMessage "user"
                   (ContentToolResults [mkToolResultBlock tool_id payload])].
Proof.
  apply (follow_ups_drop_user_message Scenario.listing Scenario.bridge
           "List my events" [] eq_refl).
Defined.


Lemma other_lengths_are_forwarded_witness :
  exists outcome tr',
    process_request (integration Scenario.assistant) "quit " [] = (Ok outcome, tr')
    /\ process_command Scenario.assistant "quit " [] = (Ok (TurnResult outcome), tr').
Proof.
  apply (other_lengths_are_forwarded Scenario.assistant "quit " []).
  simpl. lia.
Defined.

Lemma discovery_builds_registry_witness :
  MCPTool.name (MCPTool.mk "list_calendar_events" "List events" (JObj ∅)) =
    "list_calendar_events"
  /\ MCPTool.mk "list_calendar_events" "List events" (JObj ∅)
       ∈ Walkthrough.announced_twice.
Proof.
  apply (proj2 (proj2 (discovery_builds_registry Walkthrough.announced_twice))).
  apply list_elem_of_here.
Defined.

Lemma discovery_last_announcement_wins_witness :
  dict_get "list_calendar_events" (tools_by_name Walkthrough.announced_twice) =
    Some (MCPTool.mk "list_calendar_events" "List events" (JObj ∅)).
Proof.
  apply (discovery_last_announcement_wins
           [MCPTool.mk "list_calendar_events" "List events (old)" (JObj ∅);
            MCPTool.mk "create_calendar_event" "Create an event" (JObj ∅)]
           []
           (MCPTool.mk "list_calendar_events" "List events" (JObj ∅))).
  intros t Ht. by apply elem_of_nil in Ht.
Defined.

Lemma discovery_keeps_announced_order_witness :
  tools_by_name Walkthrough.announced =
    (fun t => (MCPTool.name t, t)) <$> Walkthrough.announced.
Proof.
  apply (discovery_keeps_announced_order Walkthrough.announced).
  by_computation.
Defined.

Lemma connect_registers_announced_tools_witness :
  exists o',
    __aenter__ Walkthrough.server (new_client None None, []) =
      (Ok tt, (o', [] ++ Walkthrough.handshake))
    /\ session (attrs o') = Some Scenario.service
    /\ tools (attrs o') = tools_by_name Walkthrough.announced
    /\ (forall t, t ∈ Walkthrough.announced ->
                  MCPTool.name t ∈ registry_keys (attrs o'))
    /\ (NoDup (MCPTool.name <$> Walkthrough.announced) ->
        get_available_tools (attrs o') =
          (fun t => ToolDescriptor.mk (MCPTool.name t) (MCPTool.description t)
                      (MCPTool.inputSchema t)) <$> Walkthrough.announced).
Proof.
  apply (connect_registers_announced_tools Walkthrough.server
           (new_client None None) [] Scenario.service Walkthrough.announced
           eq_refl eq_refl eq_refl eq_refl).
Defined.

Lemma connect_failure_is_reraised_witness :
  ((exists u, stdio_enter Walkthrough.stalled_server "npx"
                ["-y"; "@cocal/google-calendar-mcp"] = Ok u)
   /\ (exists s, session_enter Walkthrough.stalled_server = Ok s)
   /\ session_initialize Walkthrough.stalled_server =
        Raised (OtherError "McpError" "Connection closed")
   /\ [StdioEnter "npx" ["-y"; "@cocal/google-calendar-mcp"];
       SessionEnter; SessionInitialize] =
        [] ++ [StdioEnter "npx" ["-y"; "@cocal/google-calendar-mcp"];
               SessionEnter; SessionInitialize])
  /\ tools (attrs Walkthrough.half_open) = []
  /\ has_stdio_client Walkthrough.half_open = true.
Proof.
  destruct (connect_failure_is_reraised Walkthrough.stalled_server
              (new_client None None) []
              (OtherError "McpError" "Connection closed")
              Walkthrough.half_open
              [StdioEnter "npx" ["-y"; "@cocal/google-calendar-mcp"];
               SessionEnter; SessionInitialize] eq_refl)
    as (Hcase & Htools & Hstdio).
  split; [|split; [exact Htools | exact Hstdio]].
  destruct Hcase as [[_ Hlog]|[(_ & _ & Hlog)|[Hthird|(_ & _ & _ & _ & Hlog)]]].
  - discriminate Hlog.
  - discriminate Hlog.
  - exact Hthird.
  - discriminate Hlog.
Defined.

Lemma registered_tools_reach_the_service_witness :
  is_Some (session (attrs Walkthrough.connected))
  /\ snd (execute_tool (attrs Walkthrough.connected) "list_calendar_events" ∅ []) =
       [] ++ [RemoteCall "list_calendar_events" ∅].
Proof.
  apply (registered_tools_reach_the_service Walkthrough.server None None []
           (Ok tt) Walkthrough.connected Walkthrough.handshake
           "list_calendar_events" ∅ []).
  - reflexivity.
  - by_computation.
Defined.

Lemma disconnect_leaves_session_first_witness :
  __aexit__ Walkthrough.clinging_server
    (Walkthrough.connected, Walkthrough.handshake) =
    (Raised (OtherError "RuntimeError" "Attempted to exit cancel scope"),
     (Walkthrough.connected, Walkthrough.handshake ++ [SessionExit])).
Proof.
  apply (proj2 (disconnect_leaves_session_first Walkthrough.clinging_server
                  (new_client None None) [] Walkthrough.connected
                  Walkthrough.handshake eq_refl)).
  reflexivity.
Defined.

Lemma disconnect_after_failed_connect_witness :
  (has_session_context Walkthrough.half_open = true <->
   exists u,
     stdio_enter Walkthrough.stalled_server
       (server_command (attrs (@new_client string None None)))
       (server_args (attrs (@new_client string None None))) = Ok u)
  /\ snd (snd (__aexit__ Walkthrough.stalled_server
                 (Walkthrough.half_open,
                  [StdioEnter "npx" ["-y"; "@cocal/google-calendar-mcp"];
                   SessionEnter; SessionInitialize]))) =
       [StdioEnter "npx" ["-y"; "@cocal/google-calendar-mcp"];
        SessionEnter; SessionInitialize]
       ++ (if has_session_context Walkthrough.half_open
           then match session_exit Walkthrough.stalled_server with
                | Ok _ => [SessionExit; StdioExit]
                | Raised _ => [SessionExit]
                end
           else [StdioExit]).
Proof.
  apply (disconnect_after_failed_connect Walkthrough.stalled_server None None []
           (OtherError "McpError" "Connection closed")).
  reflexivity.
Defined.

Lemma failed_start_closes_nothing_witness :
  interactive_mode Walkthrough.stalled_server Scenario.listing_backend
    Walkthrough.before =
    (Raised (OtherError "McpError" "Connection closed"),
     Walkthrough.after_failed_start)
  /\ turns Walkthrough.after_failed_start = turns Walkthrough.before
  /\ stdin Walkthrough.after_failed_start = stdin Walkthrough.before
  /\ exists made,
       server_calls Walkthrough.after_failed_start =
         server_calls Walkthrough.before ++ made
       /\ made <> []
       /\ (SessionExit ∉ made)
       /\ (StdioExit ∉ made).
Proof.
  apply (failed_start_closes_nothing Walkthrough.stalled_server
           Scenario.listing_backend Walkthrough.before).
  reflexivity.
Defined.

Lemma interactive_session_witness :
  exists r w2 closing,
    interactive_mode Walkthrough.server Scenario.listing_backend
      Walkthrough.before = (r, w2)
    /\ turns w2 =
         run_turns (integration_of Scenario.listing_backend Walkthrough.after_start)
           (commands_before_sentinel (stdin Walkthrough.before))
           (turns Walkthrough.before)
    /\ stdin w2 = lines_after_sentinel (stdin Walkthrough.before)
    /\ server_calls w2 =
         server_calls Walkthrough.after_start ++ SessionExit :: closing
    /\ match session_exit Walkthrough.server with
       | Ok _ => closing = [StdioExit]
       | Raised e => closing = [] /\ r = Raised e
       end
    /\ (session_exit Walkthrough.server = Ok tt ->
        stdio_exit Walkthrough.server = Ok tt ->
        r = if existsb is_sentinel (stdin Walkthrough.before) then Ok tt
            else Raised (OtherError "EOFError" "EOF when reading a line")).
Proof.
  apply (interactive_session Walkthrough.server Scenario.listing_backend
           Walkthrough.before Walkthrough.after_start).
  reflexivity.
Defined.

Lemma turn_survives_remote_failures_witness :
  exists rs tr',
    process_request Scenario.listing "List my events" [] =
      (Ok (Completed rs (Response.mk Scenario.list_request)), tr')
    /\ success (Completed rs (Response.mk Scenario.list_request)) = true.
Proof.
  apply (turn_survives_remote_failures Scenario.listing Scenario.bridge
           "List my events" [] (Response.mk Scenario.list_request) eq_refl).
  - intros content. eexists. reflexivity.
  - intros tr req. destruct tr; eexists; reflexivity.
  - reflexivity.
  - intros u Hu. apply list_elem_of_singleton in Hu. rewrite Hu.
    by_computation.
Defined.

Lemma failed_turn_keeps_side_effects_witness :
  exists outcome,
    process_request Walkthrough.overreaching "Book a standup" [] =
      (Ok outcome,
       snd (handle_blocks Walkthrough.overreaching
              Walkthrough.overreaching_response
              [ToolUseBlock "toolu_01" "create_calendar_event"
                 (create_calendar_event_args "Standup" "2025-01-02T09:00:00"
                    "2025-01-02T09:30:00" None None)]
              [] [ModelRequest (Scenario.first_request "Book a standup")]))
    /\ outcome =
         Failed ("Failed to process request: "
                 +:+ ("Tool '" +:+ "delete_calendar"
                      +:+ "' not available. Available tools: "
                      +:+ repr_list (registry_keys Scenario.bridge)))
    /\ results outcome = None.
Proof.
  eapply (failed_turn_keeps_side_effects Walkthrough.overreaching
            Scenario.bridge "Book a standup" []
            Walkthrough.overreaching_response
            [ToolUseBlock "toolu_01" "create_calendar_event"
               (create_calendar_event_args "Standup" "2025-01-02T09:00:00"
                  "2025-01-02T09:30:00" None None)]
            "toolu_02" "delete_calendar" ∅ []
            [ToolExecutionEntry "create_calendar_event" "toolu_01"
               (create_calendar_event_args "Standup" "2025-01-02T09:00:00"
                  "2025-01-02T09:30:00" None None)
               (ToolSuccess "event created" "create_calendar_event");
             FinalResponseEntry "The meeting is booked."]
            _ eq_refl eq_refl eq_refl).
  - by_computation.
  - vm_compute. reflexivity.
Defined.

(** In that last scenario the meeting has been booked although the turn
    reports a failure. *)
Lemma overreaching_turn_has_booked :
  remote_calls (snd (process_request Walkthrough.overreaching "Book a standup" [])) =
    [("create_calendar_event",
      create_calendar_event_args "Standup" "2025-01-02T09:00:00"
        "2025-01-02T09:30:00" None None)]
  /\ exists message,
       fst (process_request Walkthrough.overreaching "Book a standup" []) =
         Ok (Failed message).
Proof. split; [vm_compute; reflexivity | eexists; reflexivity]. Qed.
